(** * A shallow embedding of [site.py], the static site generator

    The development follows the order of the source file: Python values and
    exceptions, the configuration loader, the string helpers behind template
    selection and output paths, tag normalisation, Python's stable [sorted],
    and finally the builders that derive listings, tag pages, date archives,
    the feed and the sitemap from the index. *)

From stdpp Require Import gmap strings list fin_maps sorting pretty.

#[local] Set Warnings "-register-all,-clear-no-such-hyp".
#[local] Open Scope Z_scope.

(** ** Python values *)

(** A Python [str] is a sequence of Unicode code points.  Keys of
    dictionaries written in the program text ("date", "url", ...) are kept
    as Rocq strings. *)
Abbreviation str := (list N).

Definition u (s : string) : str :=
  (λ a, Ascii.N_of_ascii a) <$> String.list_ascii_of_string s.

(** A timezone-aware UTC [datetime]: the calendar fields read by [strftime]
    and the time of day in microseconds.  Python orders these values field by
    field. *)
Record datetime := Datetime { year : Z; month : Z; day : Z; tod : Z }.

(** The objects a YAML document, front matter or a configuration can hold. *)
Inductive pyval :=
| VNone
| VBool (b : bool)
| VInt (z : Z)
| VStr (s : str)
| VDate (d : datetime)
| VList (l : list pyval)
| VDict (d : gmap string pyval).

(** The keys of the dict [load_config] returns: the names of the sections
    and, for a configuration file that holds a list, integers ([True] and
    [False] are the keys 1 and 0). *)
Inductive pykey :=
| KeyStr (s : string)
| KeyInt (i : Z).
Coercion KeyStr : string >-> pykey.

#[global] Instance pykey_eq_dec : EqDecision pykey.
Proof. solve_decision. Defined.

#[global] Instance pykey_countable : Countable pykey.
Proof.
  refine (inj_countable'
            (λ k, match k with KeyStr s => inl s | KeyInt i => inr i end)
            (λ x, match x with inl s => KeyStr s | inr i => KeyInt i end) _).
  by intros [].
Defined.

(** The exceptions the modelled code can raise. *)
Inductive pyerr :=
| KeyError (k : pykey)
| TypeError
| AttributeError
| IndexError
| ValueError.

Inductive result (A : Type) :=
| Ok (a : A)
| Raise (e : pyerr).
Arguments Ok {A} a.
Arguments Raise {A} e.

#[global] Instance result_ret : MRet result := λ A, Ok.
#[global] Instance result_bind : MBind result := λ A B f m,
  match m with Ok a => f a | Raise e => Raise e end.
#[global] Instance result_fmap : FMap result := λ A B f m,
  match m with Ok a => Ok (f a) | Raise e => Raise e end.

Definition is_ok {A} (r : result A) : Prop := ∃ a, r = Ok a.
Definition raises {A} (r : result A) : Prop := ∃ e, r = Raise e.

(** [bool(v)]: Python truthiness. *)
Definition truthy (v : pyval) : bool :=
  match v with
  | VNone => false
  | VBool b => b
  | VInt z => negb (z =? 0)
  | VStr s => negb (bool_decide (s = []))
  | VDate _ => true
  | VList l => negb (bool_decide (l = []))
  | VDict d => negb (bool_decide (d = ∅))
  end.

Definition is_dict (v : pyval) : bool :=
  match v with VDict _ => true | _ => false end.

(** [d[key]] on a dict. *)
Definition getitem (d : gmap string pyval) (key : string) : result pyval :=
  match d !! key with
  | Some v => Ok v
  | None => Raise (KeyError key)
  end.

(** [d.get(key, default)]. *)
Definition get_or (d : gmap string pyval) (key : string) (dflt : pyval) : pyval :=
  default dflt (d !! key).

(** The integer an object stands for where an integer is wanted; a [bool]
    is one. *)
Definition as_int (v : pyval) : option Z :=
  match v with
  | VInt z => Some z
  | VBool b => Some (if b then 1 else 0)
  | _ => None
  end.

(** ** Configuration loader *)

(** [DEFAULT_CONFIG] is a module-level dict whose four values are themselves
    dict objects.  [DEFAULT_CONFIG.copy()] is shallow: the copy holds the same
    four objects.  The store maps the identity of each nested dict object to
    its current content; a top-level value is either a reference into the
    store or an immutable value assigned from the user file. *)
Inductive cval :=
| CRef (l : nat)
| CImm (v : pyval).

Abbreviation store := (gmap nat (gmap string pyval)).
Abbreviation config := (gmap pykey cval * gmap nat (gmap string pyval))%type.

Definition site_defaults : gmap string pyval :=
  {[ "title" := VStr (u "Firstname Lastname");
     "author" := VStr (u "Firstname Lastname");
     "url" := VStr (u "https://blog.banderson443.me");
     "description" := VStr (u "Personal blog and writings") ]}.

Definition paths_defaults : gmap string pyval :=
  {[ "content" := VStr (u "content");
     "output" := VStr (u "docs");
     "templates" := VStr (u "templates");
     "static" := VStr (u "static") ]}.

Definition build_defaults : gmap string pyval :=
  {[ "posts_per_page" := VInt 20;
     "include_drafts" := VBool false ]}.

Definition feeds_defaults : gmap string pyval :=
  {[ "enabled" := VBool true;
     "rss_path" := VStr (u "/feed/rss/");
     "atom_path" := VStr (u "/feed/atom/") ]}.

Definition DEFAULT_CONFIG : gmap pykey cval :=
  {[ KeyStr "site" := CRef 0; KeyStr "paths" := CRef 1;
     KeyStr "build" := CRef 2; KeyStr "feeds" := CRef 3 ]}.

(** The store when the module has just been imported. *)
Definition initial_store : store :=
  {[ 0%nat := site_defaults; 1%nat := paths_defaults;
     2%nat := build_defaults; 3%nat := feeds_defaults ]}.

(** The body of [for key in user_config], once [user_config[key]] has been
    read. *)
Definition merge_key (key : pykey) (value : pyval)
    (acc : result config) : result config :=
  '(config, h) ← acc;
  match value with
  | VDict d =>
      (* config[key].update(user_config[key]) *)
      match config !! key with
      | None => Raise (KeyError key)
      | Some (CRef l) => Ok (config, alter (λ sec, d ∪ sec) l h)
      | Some (CImm _) => Raise AttributeError
      end
  | _ =>
      (* config[key] = user_config[key] *)
      Ok (<[key := CImm value]> config, h)
  end.

(** [l[k]] on a list: [k] must be an integer, and a negative one counts
    from the end. *)
Definition list_getitem (l : list pyval) (k : pyval) : result pyval :=
  match as_int k with
  | Some i =>
      let j := if i <? 0 then i + Z.of_nat (length l) else i in
      if (0 <=? j) && (j <? Z.of_nat (length l)) then
        match l !! Z.to_nat j with
        | Some v => Ok v
        | None => Raise IndexError
        end
      else Raise IndexError
  | None => Raise TypeError
  end.

(** One iteration of the loop when the file holds a list: the elements are
    the keys, and [user_config[key]] indexes the list. *)
Definition merge_item (l : list pyval) (acc : result config) (key : pyval)
    : result config :=
  c ← acc;
  value ← list_getitem l key;
  match as_int key with
  | Some i => merge_key (KeyInt i) value (Ok c)
  | None => Raise TypeError
  end.

(** [load_config]: [file] is [None] when the configuration file does not
    exist and the object the YAML parser returns otherwise ([VNone] for an
    empty file).  The loop iterates over whatever that object is: the keys
    of a mapping (a mapping has no two equal keys, and each iteration
    touches only the entry of its key), the elements of a list in order, the
    characters of a string (indexing the string with one of them is a
    [TypeError]); anything else cannot be iterated.  The result is the
    returned dict together with the store the call leaves behind; what a
    call that raises has written to the shared objects before it stopped
    is not reported. *)
Definition load_config (file : option pyval) (h : store) : result config :=
  match file with
  | Some (VDict user_config) =>
      map_fold (λ key, merge_key (KeyStr key)) (Ok (DEFAULT_CONFIG, h))
               user_config
  | Some (VList user_config) =>
      foldl (merge_item user_config) (Ok (DEFAULT_CONFIG, h)) user_config
  | Some (VStr []) => Ok (DEFAULT_CONFIG, h)
  | Some _ => Raise TypeError
  | None => Ok (DEFAULT_CONFIG, h)
  end.

(** [config[sec][key]]. *)
Definition cfg_get (c : config) (sec key : string) : result pyval :=
  match c.1 !! KeyStr sec with
  | None => Raise (KeyError sec)
  | Some (CRef l) =>
      match c.2 !! l with
      | Some d => getitem d key
      | None => Raise (KeyError sec)
      end
  | Some (CImm (VDict d)) => getitem d key
  | Some (CImm _) => Raise TypeError
  end.

(** The built-in value of [sec.key], as written in the source. *)
Definition default_value (sec key : string) : option pyval :=
  match DEFAULT_CONFIG !! KeyStr sec with
  | Some (CRef l) => initial_store !! l ≫= (.!! key)
  | _ => None
  end.

(** A nested default key is absent from the user file when the file does not
    give its section as a mapping holding that key. *)
Definition nested_absent (user : gmap string pyval) (sec key : string) : Prop :=
  ∀ d, user !! sec = Some (VDict d) → d !! key = None.



(** The nested dict objects of [DEFAULT_CONFIG] exist in the store: this
    holds when the module has been imported and is kept by every call. *)
Definition sections_allocated (h : store) : Prop :=
  ∀ sec l, DEFAULT_CONFIG !! KeyStr sec = Some (CRef l) → is_Some (h !! l).

(** The parsed files [load_config] can merge: a mapping whose mapping-valued
    keys are all built-in sections; a list whose elements are all indices
    into the list itself that point at elements other than mappings; the
    empty string. *)
Definition loadable (file : pyval) : Prop :=
  match file with
  | VDict user =>
      ∀ sec d, user !! sec = Some (VDict d) →
               is_Some (DEFAULT_CONFIG !! KeyStr sec)
  | VList l =>
      Forall (λ key, ∃ v, list_getitem l key = Ok v ∧ is_dict v = false) l
  | VStr s => s = []
  | _ => False
  end.

(** Two user files used below: one overrides a key inside [site], the other
    gives [site] as a plain string. *)
Definition override_title : gmap string pyval :=
  {[ "site" := VDict {[ "title" := VStr (u "Mine") ]} ]}.

Definition scalar_site : gmap string pyval :=
  {[ "site" := VStr (u "x") ]}.

(** What the merge loop has computed once the keys of [user] are processed,
    key by key of the returned dict and object by object of the store. *)
Definition merged (h : store) (user : gmap string pyval) (c : config) : Prop :=
  (∀ sec, c.1 !! KeyStr sec =
      match user !! sec with
      | Some v =>
          if is_dict v then DEFAULT_CONFIG !! KeyStr sec else Some (CImm v)
      | None => DEFAULT_CONFIG !! KeyStr sec
      end) ∧
  (∀ sec l, DEFAULT_CONFIG !! KeyStr sec = Some (CRef l) →
      c.2 !! l =
        (λ s0, match user !! sec with Some (VDict d) => d ∪ s0 | _ => s0 end)
          <$> h !! l).

(** ** String helpers *)

(** [s.lstrip(chars)], [s.rstrip(chars)] and [s.strip(chars)]: [chars] is a
    set of characters, not a prefix. *)
Fixpoint lstrip (chars s : str) : str :=
  match s with
  | [] => []
  | c :: s' => if bool_decide (c ∈ chars) then lstrip chars s' else s
  end.

Fixpoint rstrip (chars s : str) : str :=
  match s with
  | [] => []
  | c :: s' =>
      match rstrip chars s' with
      | [] => if bool_decide (c ∈ chars) then [] else [c]
      | r => c :: r
      end
  end.

Definition strip (chars s : str) : str := rstrip chars (lstrip chars s).

(** [s.split(sep)] for a one-character separator; the result is never
    empty. *)
Fixpoint split (sep : N) (s : str) : list str :=
  match s with
  | [] => [[]]
  | c :: s' =>
      if bool_decide (c = sep) then [] :: split sep s'
      else match split sep s' with
           | w :: ws => (c :: w) :: ws
           | [] => [[c]]
           end
  end.

Definition slash : N := 47.
Definition dot : N := 46.

(** [s.startswith(prefix)]. *)
Fixpoint startswith (s prefix : str) : bool :=
  match prefix, s with
  | [], _ => true
  | p :: prefix', c :: s' => bool_decide (c = p) && startswith s' prefix'
  | _ :: _, [] => false
  end.

(** ** Template selection *)

(** [mappings.get(parent, default)] for the table in [get_template_name]. *)
Definition mappings_get (parent default : str) : str :=
  if bool_decide (parent = u "blog") then u "blog.html"
  else if bool_decide (parent = u "pages") then u "page.html"
  else default.

(** [get_template_name].  [str(Path(name))] leaves the one-component names
    of the table and of the default as they are. *)
Definition get_template_name (filename content_dir default : str) : str :=
  let parent := hd [] (split slash (strip content_dir filename)) in
  mappings_get parent default.

(** ** Output paths *)

(** A pure POSIX path as [pathlib] holds it: the root and the components,
    with empty and ["."] components dropped. *)
Record Path := MkPath { anchor : str; parts : list str }.

Definition leading_slashes (s : str) : nat :=
  length s - length (lstrip [slash] s).

Definition path_of (s : str) : Path :=
  {| anchor := match leading_slashes s with
               | O => []
               | 2%nat => [slash; slash]
               | _ => [slash]
               end;
     parts := filter (λ seg, seg ≠ [] ∧ seg ≠ [dot]) (split slash s) |}.

(** [p / q]. *)
Definition path_join (p q : Path) : Path :=
  if bool_decide (anchor q = []) then
    {| anchor := anchor p; parts := parts p ++ parts q |}
  else q.

Fixpoint intercalate (sep : str) (l : list str) : str :=
  match l with
  | [] => []
  | [x] => x
  | x :: l' => x ++ sep ++ intercalate sep l'
  end.

(** [str(p)]. *)
Definition path_str (p : Path) : str :=
  match anchor p, parts p with
  | [], [] => [dot]
  | a, ps => a ++ intercalate [slash] ps
  end.

(** [s.rfind(c)], [None] standing for [-1]. *)
Fixpoint rfind (c : N) (s : str) : option nat :=
  match s with
  | [] => None
  | x :: s' =>
      match rfind c s' with
      | Some i => Some (S i)
      | None => if bool_decide (x = c) then Some O else None
      end
  end.

(** [p.stem]: the last component without its last suffix. *)
Definition stem (p : Path) : str :=
  let name := List.last (parts p) [] in
  match rfind dot name with
  | Some i =>
      if bool_decide (0 < i < length name - 1)%nat then take i name else name
  | None => name
  end.

(** The values a [for] loop draws from an object.  A dict yields its keys
    (here in the order of the finite map). *)
Definition py_iter (v : pyval) : result (list pyval) :=
  match v with
  | VList l => Ok l
  | VStr s => Ok ((λ c, VStr [c]) <$> s)
  | VDict d => Ok ((λ kv, VStr (u kv.1)) <$> map_to_list d)
  | _ => Raise TypeError
  end.

(** [v.strip("/")], for whatever object [v] is. *)
Definition strip_slashes (v : pyval) : result str :=
  match v with
  | VStr s => Ok (strip [slash] s)
  | _ => Raise AttributeError
  end.

(** [get_output_paths]: the files written for one content item. *)
Definition get_output_paths (output_dir : str) (context : gmap string pyval)
    (file : str) : result (list str) :=
  urls1 ← match context !! "url" with
           | Some v => s ← strip_slashes v; Ok [s]
           | None => Ok []
           end;
  urls2 ← match context !! "aliases" with
           | Some v => l ← py_iter v; mapM strip_slashes l
           | None => Ok []
           end;
  let urls := urls1 ++ urls2 in
  let urls := if bool_decide (urls = []) then [stem (path_of file)] else urls in
  Ok ((λ url, path_str (path_join (path_join (path_of output_dir) (path_of url))
                                  (path_of (u "index.html")))) <$> urls).

(** ** Tag normalisation *)

Definition dash : N := 45.
Definition underscore : N := 95.

Definition is_ascii (c : N) : bool := (c <? 128)%N.
Definition is_upper (c : N) : bool := (65 <=? c)%N && (c <=? 90)%N.
Definition is_lower (c : N) : bool := (97 <=? c)%N && (c <=? 122)%N.
Definition is_digit (c : N) : bool := (48 <=? c)%N && (c <=? 57)%N.

(** [\w] on an ASCII character. *)
Definition is_word (c : N) : bool :=
  is_upper c || is_lower c || is_digit c || bool_decide (c = underscore).

(** [\s] on an ASCII character: TAB, LF, VT, FF, CR, the four separators
    FS, GS, RS, US and the space. *)
Definition is_space (c : N) : bool :=
  (9 <=? c)%N && (c <=? 13)%N || (28 <=? c)%N && (c <=? 32)%N.

(** The class [[-\s]]. *)
Definition is_sep (c : N) : bool := bool_decide (c = dash) || is_space c.

(** [value.encode("ascii", "ignore").decode("ascii")]. *)
Definition ascii_ignore (s : str) : str := filter (λ c, is_ascii c) s.

(** [value.lower()] on the ASCII string it is applied to here. *)
Definition lower_char (c : N) : N := if is_upper c then (c + 32)%N else c.
Definition lower (s : str) : str := lower_char <$> s.

(** [re.sub(r"[^\w\s-]", "", value)]. *)
Definition drop_symbols (s : str) : str :=
  filter (λ c, is_word c || is_sep c) s.

(** [re.sub(r"[-\s]+", "-", value)]: every maximal run of separators becomes
    one dash; [in_run] tells that the run has already produced its dash. *)
Fixpoint collapse (in_run : bool) (s : str) : str :=
  match s with
  | [] => []
  | c :: s' =>
      if is_sep c then
        if in_run then collapse true s' else dash :: collapse true s'
      else c :: collapse false s'
  end.

Section normalize_tag.
(** [unicodedata.normalize("NFKD", ·)], a function of the Python library
    whose Unicode tables are not part of the program. *)
Variable nfkd : str → str.

Definition normalize_tag (value : str) : str :=
  let value := ascii_ignore (nfkd value) in
  let value := drop_symbols (lower value) in
  strip [dash; underscore] (collapse false value).

End normalize_tag.

(** The characters a normalised tag is made of. *)
Definition slug_char (c : N) : bool :=
  is_lower c || is_digit c || bool_decide (c = underscore) || bool_decide (c = dash).

(** A string in which every separator is a single dash standing alone;
    [after_sep] tells that the previous character was a separator. *)
Fixpoint collapsed (after_sep : bool) (s : str) : bool :=
  match s with
  | [] => true
  | c :: s' =>
      if is_sep c then
        bool_decide (c = dash) && negb after_sep && collapsed true s'
      else collapsed false s'
  end.

(** A combining diacritical mark (U+0300 to U+036F). *)
Definition is_combining (c : N) : bool := (768 <=? c)%N && (c <=? 879)%N.

(** A fragment of the normalisation, enough to run the definitions: the
    compatibility decomposition of a few Latin letters and of the ligature
    fi, every other character standing for itself, followed by the canonical
    ordering of combining marks by combining class. *)
Definition decompose_sample (c : N) : str :=
  if bool_decide (c = 233%N) then [101; 769]%N          (* e acute *)
  else if bool_decide (c = 201%N) then [69; 769]%N      (* E acute *)
  else if bool_decide (c = 252%N) then [117; 776]%N     (* u diaeresis *)
  else if bool_decide (c = 241%N) then [110; 771]%N     (* n tilde *)
  else if bool_decide (c = 231%N) then [99; 807]%N      (* c cedilla *)
  else if bool_decide (c = 64257%N) then [102; 105]%N   (* ligature fi *)
  else [c].

Definition ccc_sample (c : N) : N :=
  if bool_decide (c = 807%N) then 202%N
  else if is_combining c then 230%N
  else 0%N.

(** Insert a mark into the reversed output, before the marks of a higher
    class that precede it. *)
Fixpoint insert_mark (c : N) (out : str) : str :=
  match out with
  | [] => [c]
  | d :: out' =>
      if (ccc_sample c <? ccc_sample d)%N then d :: insert_mark c out'
      else c :: out
  end.

Definition canonical_order (s : str) : str :=
  reverse (foldl (λ out c,
    if (ccc_sample c =? 0)%N then c :: out else insert_mark c out) [] s).

Definition nfkd_sample (s : str) : str :=
  canonical_order (s ≫= decompose_sample).



(** ** Ordering and [sorted] *)

(** The order of two [datetime] values, field by field. *)
Definition dt_compare (a b : datetime) : comparison :=
  match year a ?= year b with
  | Eq => match month a ?= month b with
          | Eq => match day a ?= day b with
                  | Eq => tod a ?= tod b
                  | c => c
                  end
          | c => c
          end
  | c => c
  end.

Definition dt_lt (a b : datetime) : bool :=
  match dt_compare a b with Lt => true | _ => false end.

(** The order of two strings, code point by code point. *)
Fixpoint str_lt (a b : str) : bool :=
  match a, b with
  | _, [] => false
  | [], _ :: _ => true
  | x :: a', y :: b' =>
      if (x <? y)%N then true else if (y <? x)%N then false else str_lt a' b'
  end.

(** [a < b].  Timestamps, strings and integers are ordered among themselves;
    any other pair of operands is a [TypeError] (the element-wise order of
    two lists is not modelled). *)
Definition py_lt (a b : pyval) : result bool :=
  match a, b with
  | VDate x, VDate y => Ok (dt_lt x y)
  | VStr x, VStr y => Ok (str_lt x y)
  | _, _ =>
      match as_int a, as_int b with
      | Some x, Some y => Ok (x <? y)
      | _, _ => Raise TypeError
      end
  end.

Section sorted.
Context {A : Type}.

(** A stable ascending sort of decorated elements that only asks [<] of
    the keys: an element goes in front of the first one that is not
    smaller than it. *)
Fixpoint insert_sorted (x : pyval * A) (l : list (pyval * A))
    : result (list (pyval * A)) :=
  match l with
  | [] => Ok [x]
  | y :: l' =>
      b ← py_lt y.1 x.1;
      if b : bool then r ← insert_sorted x l'; Ok (y :: r) else Ok (x :: l)
  end.

Fixpoint sort_pairs (l : list (pyval * A)) : result (list (pyval * A)) :=
  match l with
  | [] => Ok []
  | x :: l' => r ← sort_pairs l'; insert_sorted x r
  end.

(** [sorted(l, key=key, reverse=reverse)]: the keys are computed first;
    with [reverse] the list is reversed before and after an ascending
    stable sort, which keeps elements with equal keys in their original
    order. *)
Definition sorted (l : list A) (key : A → result pyval) (rev : bool)
    : result (list A) :=
  keys ← mapM key l;
  let decorated := zip keys l in
  r ← sort_pairs (if rev then reverse decorated else decorated);
  Ok ((if rev then reverse r else r).*2).
End sorted.

(** The same sort for keys that are plain strings, as in
    [sorted(set(...))] over tags. *)
Fixpoint insert_str (x : str) (l : list str) : list str :=
  match l with
  | [] => [x]
  | y :: l' => if str_lt y x then y :: insert_str x l' else x :: l
  end.

Definition sort_strs (l : list str) : list str := foldr insert_str [] l.

(** ** Content items and what the builders produce *)

Abbreviation item := (gmap string pyval).

(** [post.get("draft", False)] taken as a condition. *)
Definition is_draft (post : item) : bool :=
  truthy (get_or post "draft" (VBool false)).

(** The key of both sorts, [lambda d: d["date"]]. *)
Definition date_key (post : item) : result pyval := getitem post "date".

(** Decimal digits of a non-negative number, and the two-digit fields of
    [strftime]. *)
Definition digits (n : Z) : str := u (pretty (Z.to_N n)).
Definition pad2 (n : Z) : str :=
  if n <? 10 then u "0" ++ digits n else digits n.

(** [d.strftime("%Y")] (the year is printed without padding, as the C
    library does for the four-digit years in use), ["%Y/%m"], ["%Y/%m/%d"]
    and ["%Y-%m-%d"]. *)
Definition strftime_Y (d : datetime) : str := digits (year d).
Definition strftime_Ym (d : datetime) : str :=
  strftime_Y d ++ u "/" ++ pad2 (month d).
Definition strftime_Ymd (d : datetime) : str :=
  strftime_Ym d ++ u "/" ++ pad2 (day d).
Definition strftime_iso (d : datetime) : str :=
  strftime_Y d ++ u "-" ++ pad2 (month d) ++ u "-" ++ pad2 (day d).

(** [v.strftime(...)]: only a [datetime] has the method. *)
Definition as_datetime (v : pyval) : result datetime :=
  match v with
  | VDate d => Ok d
  | _ => Raise AttributeError
  end.

(** The subtitle of a rendered listing, kept as the f-string that builds
    it. *)
Inductive subtitle :=
| Latest
| AllOfIt (site_title : pyval)
| Archive
| Tags
| Tagged (tag : str).

(** One call of [render]: the file written, the template and the context
    handed to it. *)
Record page := Page {
  page_file : str;
  page_template : string;
  page_title : pyval;
  page_subtitle : subtitle;
  page_posts : list item;
  page_tags : list (str * str);
}.

(** The file [render] writes for an HTML template under [path]. *)
Definition render_file (path : str) : str :=
  path_str (path_join (path_of path) (path_of (u "index.html"))).

(** A [defaultdict(list)] in insertion order, and [d[k].append(v)]. *)
Fixpoint dd_append {V} (k : str) (v : V) (d : list (str * list V))
    : list (str * list V) :=
  match d with
  | [] => [(k, [v])]
  | (k', vs) :: d' =>
      if decide (k = k') then (k', vs ++ [v]) :: d'
      else (k', vs) :: dd_append k v d'
  end.

(** ** Index pages *)

(** [l[:n]] for an integer [n]: a negative [n] counts from the end. *)
Definition py_slice_to {A} (n : Z) (l : list A) : list A :=
  if n <? 0 then take (length l - Z.to_nat (- n)) l else take (Z.to_nat n) l.

(** [l[:v]] for whatever object the configuration holds. *)
Definition slice_to {A} (v : pyval) (l : list A) : result (list A) :=
  match v with
  | VNone => Ok l
  | _ => match as_int v with
         | Some n => Ok (py_slice_to n l)
         | None => Raise TypeError
         end
  end.

(** [sorted(index, key=lambda d: d["date"], reverse=True)]. *)
Definition listing (index : list item) : result (list item) :=
  sorted index date_key true.

Definition build_index (output : str) (index : list item) (config : config)
    : result (list page) :=
  posts_per_page ← cfg_get config "build" "posts_per_page";
  site_title ← cfg_get config "site" "title";
  index ← listing index;
  home ← slice_to posts_per_page index;
  Ok [ Page (render_file output) "index.html" site_title Latest home [];
       Page (path_str (path_join (path_join (path_of output) (path_of (u "blog")))
                                 (path_of (u "index.html"))))
            "index.html" site_title (AllOfIt site_title) index [] ].

(** ** Date archives *)

(** The body of the first loop of [build_date_archives] for one post. *)
Definition archive_post (articles : list (str * list item)) (post : item)
    : result (list (str * list item)) :=
  date ← getitem post "date";
  d ← as_datetime date;
  let year_path := u "blog/" ++ strftime_Y d in
  let month_path := u "blog/" ++ strftime_Ym d in
  let day_path := u "blog/" ++ strftime_Ymd d in
  Ok (dd_append day_path post
        (dd_append month_path post (dd_append year_path post articles))).

Fixpoint archive_posts (articles : list (str * list item)) (index : list item)
    : result (list (str * list item)) :=
  match index with
  | [] => Ok articles
  | post :: index' => a ← archive_post articles post; archive_posts a index'
  end.

Definition build_date_archives (output : str) (index : list item)
    (config : config) : result (list page) :=
  articles ← archive_posts [] index;
  mapM (λ '(path, posts),
          site_title ← cfg_get config "site" "title";
          Ok (Page (render_file (output ++ u "/" ++ path)) "index.html"
                   site_title Archive posts []))
       articles.

(** ** Tag pages *)

(** The tags one post contributes, [post.get("tags", [])] iterated.  An
    element that is not a string ends in a [TypeError], in [set], in
    [sorted] or in [normalize_tag] at the latest. *)
Definition as_str (v : pyval) : result str :=
  match v with
  | VStr s => Ok s
  | _ => Raise TypeError
  end.

Definition post_tags (post : item) : result (list str) :=
  l ← py_iter (get_or post "tags" (VList []));
  mapM as_str l.

(** The tags of all posts chained together, in the order of the index. *)
Definition all_tags (index : list item) : result (list str) :=
  tags ← mapM post_tags index;
  Ok (concat tags).

Section build_tags.
Variable nfkd : str → str.

(** The list the tag index is rendered from: the original tags, made
    distinct and sorted, then normalised one by one. *)
Definition tag_index_slugs (index : list item) : result (list str) :=
  tags ← all_tags index;
  let tags := sort_strs (remove_dups tags) in
  Ok (normalize_tag nfkd <$> tags).

(** The second loop: posts grouped under their normalised tags. *)
Definition group_post (by_tags : list (str * list item)) (post : item)
    : result (list (str * list item)) :=
  tags ← post_tags post;
  Ok (foldl (λ acc tag, dd_append (normalize_tag nfkd tag) post acc)
            by_tags tags).

Fixpoint group_posts (by_tags : list (str * list item)) (index : list item)
    : result (list (str * list item)) :=
  match index with
  | [] => Ok by_tags
  | post :: index' => a ← group_post by_tags post; group_posts a index'
  end.

Definition build_tags (output : str) (index : list item) (config : config)
    : result (list page) :=
  site_title ← cfg_get config "site" "title";
  tags ← tag_index_slugs index;
  let tag_page :=
    Page (render_file (output ++ u "/blog/tags/")) "tags.html" site_title
         Tags [] ((λ tag, (tag, u "/blog/tags/" ++ tag ++ u "/")) <$> tags) in
  by_tags ← group_posts [] index;
  Ok (tag_page ::
      ((λ '(tag, posts),
          Page (render_file (output ++ u "/blog/tags/" ++ tag)) "index.html"
               site_title (Tagged tag) posts []) <$> by_tags)).
End build_tags.

(** ** Feeds and sitemap *)

(** [a + b]. *)
Definition py_add (a b : pyval) : result pyval :=
  match a, b with
  | VStr x, VStr y => Ok (VStr (x ++ y))
  | VList x, VList y => Ok (VList (x ++ y))
  | _, _ =>
      match as_int a, as_int b with
      | Some x, Some y => Ok (VInt (x + y))
      | _, _ => Raise TypeError
      end
  end.

Record feed_entry := FeedEntry {
  entry_id : pyval;
  entry_author : pyval;
  entry_title : pyval;
  entry_link : pyval;
  entry_content : pyval;
  entry_description : pyval;
  entry_pubdate : pyval;
}.

Record feed := Feed {
  feed_id : pyval;
  feed_title : pyval;
  feed_author : pyval;
  feed_subtitle : pyval;
  feed_entries : list feed_entry;
}.

(** The posts the feed is made from, in the order in which they are handed
    to the feed library: oldest first. *)
Definition feed_items (index : list item) : result (list item) :=
  sorted (filter (λ post, negb (is_draft post)) index) date_key false.

(** Two operations of the feed library [feedgen] decide what the loop over
    [items] does and are modelled with it.  [fe.pubdate(v)] checks its
    argument when it is called: [None] sets nothing, a text is handed to the
    library's date parser, and what results must be a timestamp that carries
    a time zone, [ValueError] otherwise.  The timestamps of the front matter
    carry one; whether a text parses to a timestamp that does is the
    parameter [aware].  [fg.add_entry()] puts the new entry in front of the
    entries added before.  Serialising the feed is outside the program. *)
Definition pubdate (aware : str → bool) (v : pyval) : result unit :=
  match v with
  | VNone | VDate _ => Ok ()
  | VStr s => if aware s then Ok () else Raise ValueError
  | _ => Raise ValueError
  end.

(** A parser for which no text carries a time zone; it agrees with the
    library on the text dates used below. *)
Definition no_zone (s : str) : bool := false.

(** The body of the loop over [items]. *)
Definition add_entry (aware : str → bool) (site_url author : pyval)
    (post : item) : result feed_entry :=
  url ← getitem post "url";
  id ← py_add site_url url;
  title ← getitem post "title";
  url' ← getitem post "url";
  link ← py_add site_url url';
  content ← getitem post "html_content";
  let description := get_or post "description" (VStr []) in
  date ← getitem post "date";
  _ ← pubdate aware date;
  Ok (FeedEntry id author title link content description date).

(** [build_feeds]: [None] when feeds are disabled, the feed document both
    serialisations are written from otherwise.  Its entries are in the
    order of the document: the entry added last comes first. *)
Definition build_feeds (aware : str → bool) (output : str)
    (index : list item) (config : config) : result (option feed) :=
  enabled ← cfg_get config "feeds" "enabled";
  if negb (truthy enabled) then Ok None
  else
    site_url ← cfg_get config "site" "url";
    site_title ← cfg_get config "site" "title";
    author ← cfg_get config "site" "author";
    description ← cfg_get config "site" "description";
    items ← feed_items index;
    entries ← mapM (add_entry aware site_url author) items;
    Ok (Some (Feed site_url site_title author description (reverse entries))).

(** One [<url>] element: the two values formatted into [<loc>] and the text
    of [<lastmod>]. *)
Record url_entry := UrlEntry {
  loc_site : pyval;
  loc_url : pyval;
  lastmod : str;
}.

Definition sitemap_entry (site_url : pyval) (post : item) : result url_entry :=
  url ← getitem post "url";
  date ← getitem post "date";
  d ← as_datetime date;
  Ok (UrlEntry site_url url (strftime_iso d)).

Definition build_sitemap (output : str) (index : list item) (config : config)
    : result (list url_entry) :=
  site_url ← cfg_get config "site" "url";
  mapM (sitemap_entry site_url)
       (filter (λ post, negb (is_draft post)) index).

(** ** The build *)

(** Everything [build] derives from the index, in the order of the source.
    The steps that follow (developer page, static files, texts, CNAME) only
    touch the file system. *)
Record site := Site {
  site_index_pages : list page;
  site_tag_pages : list page;
  site_archive_pages : list page;
  site_feed : option feed;
  site_sitemap : list url_entry;
}.

Definition build_site (nfkd : str → str) (aware : str → bool) (output : str)
    (index : list item) (config : config) : result site :=
  index_pages ← build_index output index config;
  tag_pages ← build_tags nfkd output index config;
  archive_pages ← build_date_archives output index config;
  fd ← build_feeds aware output index config;
  sitemap ← build_sitemap output index config;
  Ok (Site index_pages tag_pages archive_pages fd sitemap).

(** One iteration of the loop over the markdown files: [context] is what
    [get_template_context] parsed from [file].  The result is the template
    chosen, the files written and whether the item joins the index; [None]
    for a skipped draft. *)
Definition build_file (content output : str) (config : config)
    (file : str) (context : item)
    : result (option (str * list str * bool)) :=
  skip ← (if truthy (get_or context "draft" VNone) then
            include_drafts ← cfg_get config "build" "include_drafts";
            Ok (negb (truthy include_drafts))
          else Ok false);
  if skip : bool then Ok None
  else
    let template := get_template_name file content (u "page.html") in
    paths ← get_output_paths output context file;
    Ok (Some (template, paths, startswith (strip content file) (u "/blog"))).

Fixpoint build_files (content output : str) (config : config)
    (files : list (str * item)) : result (list (str * list str) * list item) :=
  match files with
  | [] => Ok ([], [])
  | (file, context) :: files' =>
      r ← build_file content output config file context;
      '(written, index) ← build_files content output config files';
      match r with
      | None => Ok (written, index)
      | Some (template, paths, in_blog) =>
          Ok ((template, paths) :: written,
              if in_blog : bool then context :: index else index)
      end
  end.

(** [build], from the loaded configuration and the parsed files on. *)
Definition build (nfkd : str → str) (aware : str → bool) (config : config)
    (files : list (str * item)) : result (list (str * list str) * site) :=
  content ← cfg_get config "paths" "content" ≫= as_str;
  output ← cfg_get config "paths" "output" ≫= as_str;
  '(written, index) ← build_files content output config files;
  st ← build_site nfkd aware output index config;
  Ok (written, st).

(** ** Statements about orders and sample data *)

(** [a["date"] < b["date"]] holds (and does not fail). *)
Definition date_lt (a b : item) : bool :=
  match date_key a, date_key b with
  | Ok ka, Ok kb => match py_lt ka kb with Ok true => true | _ => false end
  | _, _ => false
  end.

(** Oldest first, respectively newest first. *)
Definition ascending (l : list item) : Prop :=
  StronglySorted (λ a b, date_lt b a = false) l.
Definition descending (l : list item) : Prop :=
  StronglySorted (λ a b, date_lt a b = false) l.

(** Every item carries a timestamp. *)
Definition dated (l : list item) : Prop :=
  Forall (λ post, ∃ d, post !! "date" = Some (VDate d)) l.

(** The configuration of a fresh run without a file, and the same with
    another [posts_per_page]. *)
Definition default_config : config := (DEFAULT_CONFIG, initial_store).

Definition config_posts_per_page (n : Z) : config :=
  (DEFAULT_CONFIG,
   <[2%nat := <["posts_per_page" := VInt n]> build_defaults]> initial_store).

Definition jan5 : datetime := Datetime 2024 1 5 0.
Definition feb1 : datetime := Datetime 2024 2 1 0.

(** A post without [url], as in the scenario of the specification. *)
Definition hello_post : item :=
  {[ "title" := VStr (u "Hello"); "date" := VDate jan5;
     "tags" := VList [VStr (u "Go Lang")];
     "html_content" := VStr (u "<p>Hello</p>") ]}.

Definition second_post : item :=
  {[ "title" := VStr (u "Second"); "date" := VDate feb1;
     "url" := VStr (u "/blog/second/");
     "html_content" := VStr (u "<p>Second</p>") ]}.

(** Published on the same day as [hello_post]. *)
Definition third_post : item :=
  {[ "title" := VStr (u "Third"); "date" := VDate jan5;
     "url" := VStr (u "/blog/third/");
     "html_content" := VStr (u "<p>Third</p>") ]}.

Definition first_post : item :=
  {[ "title" := VStr (u "First"); "date" := VDate jan5;
     "url" := VStr (u "/blog/first/");
     "html_content" := VStr (u "<p>First</p>") ]}.

(** A post whose date could not be parsed and was left as text. *)
Definition undated_post : item :=
  {[ "title" := VStr (u "Soon"); "date" := VStr (u "tomorrow");
     "url" := VStr (u "/blog/soon/");
     "html_content" := VStr (u "<p>Soon</p>") ]}.

Definition draft_post : item :=
  {[ "title" := VStr (u "Draft"); "date" := VDate feb1; "draft" := VBool true;
     "url" := VStr (u "/blog/draft/");
     "html_content" := VStr (u "<p>Draft</p>") ]}.

(** A post tagged twice with tags that differ in case only. *)
Definition go_post : item :=
  {[ "title" := VStr (u "Go"); "date" := VDate jan5;
     "tags" := VList [VStr (u "Go"); VStr (u "go")];
     "url" := VStr (u "/blog/go/");
     "html_content" := VStr (u "<p>Go</p>") ]}.

(** A decorated element is not above another: the sort never finds the
    second smaller than the first. *)
Definition key_le {A} (x y : pyval * A) : Prop := py_lt y.1 x.1 = Ok false.

Definition date_keyed {A} (x : pyval * A) : Prop := ∃ d, x.1 = VDate d.

(** The pair holds the key of its item. *)
Definition decorated (x : pyval * item) : Prop := date_key x.2 = Ok x.1.

(** The two properties of the listings as the specification words them:
    the home page holds at most [posts_per_page] posts and is the prefix of
    length min(posts_per_page, |index|) of the full listing; the entries of
    the feed are in ascending order of date, the reverse of the order of
    the listing on the posts that are not drafts. *)
Definition home_is_prefix (output : str) (index : list item) (config : config)
    : Prop :=
  ∃ n home_page full_page,
    cfg_get config "build" "posts_per_page" = Ok (VInt n) ∧
    build_index output index config = Ok [home_page; full_page] ∧
    Z.of_nat (length (page_posts home_page)) ≤ n ∧
    page_posts home_page
      = take (Z.to_nat (Z.min n (Z.of_nat (length index))))
             (page_posts full_page).

Definition pub_lt (a b : feed_entry) : bool :=
  match py_lt (entry_pubdate a) (entry_pubdate b) with
  | Ok true => true
  | _ => false
  end.

Definition feed_reverses_listing (aware : str → bool) (output : str)
    (index : list item) (config : config) : Prop :=
  ∃ full fd site_url author,
    listing index = Ok full ∧
    build_feeds aware output index config = Ok (Some fd) ∧
    descending full ∧
    StronglySorted (λ a b, pub_lt b a = false) (feed_entries fd) ∧
    Forall2 (λ post e, add_entry aware site_url author post = Ok e)
            (reverse (filter (λ post, negb (is_draft post)) full))
            (feed_entries fd).

(** The feed document built from [first_post] and [second_post] under the
    built-in configuration: the later post comes first. *)
Definition two_post_feed : feed :=
  Feed (VStr (u "https://blog.banderson443.me"))
       (VStr (u "Firstname Lastname")) (VStr (u "Firstname Lastname"))
       (VStr (u "Personal blog and writings"))
       [ FeedEntry (VStr (u "https://blog.banderson443.me/blog/second/"))
           (VStr (u "Firstname Lastname")) (VStr (u "Second"))
           (VStr (u "https://blog.banderson443.me/blog/second/"))
           (VStr (u "<p>Second</p>")) (VStr []) (VDate feb1);
         FeedEntry (VStr (u "https://blog.banderson443.me/blog/first/"))
           (VStr (u "Firstname Lastname")) (VStr (u "First"))
           (VStr (u "https://blog.banderson443.me/blog/first/"))
           (VStr (u "<p>First</p>")) (VStr []) (VDate jan5) ].

(** A post whose two tags sort as ["B"; "a"]. *)
Definition mixed_case_post : item :=
  {[ "title" := VStr (u "Mixed"); "date" := VDate jan5;
     "tags" := VList [VStr (u "a"); VStr (u "B")];
     "html_content" := VStr (u "<p>Mixed</p>") ]}.

(** The posts listed on each rendered page. *)
Definition posts_of_pages (r : result (list page)) : result (list (list item)) :=
  match r with
  | Ok pages => Ok (map page_posts pages)
  | Raise e => Raise e
  end.

(** ** Further statements about the sort *)

#[global] Instance datetime_eq_dec : EqDecision datetime.
Proof. solve_decision. Defined.

(** The post was published at [d]; the same for a decorated element. *)
Definition on_date (d : datetime) (post : item) : bool :=
  match post !! "date" with
  | Some (VDate d') => bool_decide (d' = d)
  | _ => false
  end.

Definition key_is {A} (d : datetime) (x : pyval * A) : bool :=
  match x.1 with
  | VDate d' => bool_decide (d' = d)
  | _ => false
  end.

(** The kinds of objects [<] orders among themselves. *)
Inductive kind := KDate | KStr | KInt.

Definition key_kind (v : pyval) : option kind :=
  match v with
  | VDate _ => Some KDate
  | VStr _ => Some KStr
  | VInt _ | VBool _ => Some KInt
  | _ => None
  end.

(** Reading a [defaultdict(list)]: the list under [k], empty when the key
    was never appended to. *)
Fixpoint dd_get {V} (k : str) (d : list (str * list V)) : list V :=
  match d with
  | [] => []
  | (k', vs) :: d' => if decide (k = k') then vs else dd_get k d'
  end.

(** The three archive pages a timestamp belongs to, and whether a post
    belongs to the archive page at [path]. *)
Definition archive_paths (d : datetime) : list str :=
  [u "blog/" ++ strftime_Y d; u "blog/" ++ strftime_Ym d;
   u "blog/" ++ strftime_Ymd d].

Definition on_path (path : str) (post : item) : bool :=
  match post !! "date" with
  | Some (VDate d) => bool_decide (path ∈ archive_paths d)
  | _ => false
  end.

(** How often a post carries a tag whose slug is [slug]. *)
Definition tagged_times (nfkd : str → str) (slug : str) (post : item) : nat :=
  match post_tags post with
  | Ok tags => length (filter (λ tag, normalize_tag nfkd tag = slug) tags)
  | Raise _ => 0
  end.

(** What a post of the index must provide: a timestamp, tags that can be
    iterated as strings and, unless it is a draft, a [url]; with the feeds
    enabled also a [url] that can be added to the site's, a [title] and the
    rendered content. *)
Definition post_ok (feeds : bool) (site_url : pyval) (post : item) : Prop :=
  (∃ d, post !! "date" = Some (VDate d))
  ∧ is_ok (post_tags post)
  ∧ (is_draft post = false →
       ∃ url, post !! "url" = Some url
         ∧ (feeds = true →
              is_ok (py_add site_url url) ∧ is_Some (post !! "title")
              ∧ is_Some (post !! "html_content"))).

(** ** Slugs of titles *)

Definition space : N := 32.

Section to_slug.
(** [str.lower] follows the Unicode tables; it is a parameter here. *)
Variable str_lower : str → str.

(** [to_slug]: lower the text, turn spaces into dashes, keep the letters
    [a-z] and the dashes. *)
Definition to_slug (value : str) : str :=
  filter (λ c, is_lower c || bool_decide (c = dash))
         ((λ c, if bool_decide (c = space) then dash else c)
            <$> str_lower value).
End to_slug.

(** * Theorems *)

(** ** The configuration loader *)

Section load_config_facts.
Implicit Types (user : gmap string pyval) (h : store) (sec key : string).

Lemma DEFAULT_CONFIG_refs (k : pykey) c :
  DEFAULT_CONFIG !! k = Some c → ∃ l, c = CRef l.
Proof.
  unfold DEFAULT_CONFIG. rewrite !lookup_insert, lookup_singleton.
  repeat case_decide; intros; simplify_eq; eauto.
Qed.

Lemma DEFAULT_CONFIG_inj (k1 k2 : pykey) l :
  DEFAULT_CONFIG !! k1 = Some (CRef l) →
  DEFAULT_CONFIG !! k2 = Some (CRef l) → k1 = k2.
Proof.
  unfold DEFAULT_CONFIG. rewrite !lookup_insert, !lookup_singleton.
  repeat case_decide; intros; simplify_eq; done.
Qed.

Lemma DEFAULT_CONFIG_no_int i : DEFAULT_CONFIG !! KeyInt i = None.
Proof.
  unfold DEFAULT_CONFIG. rewrite !lookup_insert, !lookup_singleton.
  repeat case_decide; simplify_eq; done.
Qed.

Lemma merge_loop_spec h user :
  (∀ sec d, user !! sec = Some (VDict d) →
            is_Some (DEFAULT_CONFIG !! KeyStr sec)) →
  ∃ c, map_fold (λ key, merge_key (KeyStr key)) (Ok (DEFAULT_CONFIG, h)) user
         = Ok c ∧ merged h user c.
Proof.
  apply (map_fold_weak_ind (λ r m,
    (∀ sec d, m !! sec = Some (VDict d) →
              is_Some (DEFAULT_CONFIG !! KeyStr sec)) →
    ∃ c, r = Ok c ∧ merged h m c)); clear user.
  - intros _. exists (DEFAULT_CONFIG, h). split; [done|]. split.
    + intros sec. by rewrite lookup_empty.
    + intros sec l _. rewrite lookup_empty. simpl. by destruct (h !! l).
  - intros i x m r Hi IH Hdom.
    destruct IH as [[cfg h'] [-> [Htop Hobj]]].
    { intros sec d Hsec. apply (Hdom sec d).
      rewrite lookup_insert_ne; [done|]. intros ->. congruence. }
    simpl in Htop, Hobj.
    assert (cfg !! KeyStr i = DEFAULT_CONFIG !! KeyStr i) as Hcfgi.
    { by rewrite Htop, Hi. }
    destruct (decide (is_dict x = true)) as [Hx|Hx].
    + destruct x as [| | | | | |d]; try done.
      destruct (Hdom i d) as [ci Hci]; [by rewrite lookup_insert_eq|].
      destruct (DEFAULT_CONFIG_refs _ _ Hci) as [l ->].
      exists (cfg, alter (λ s0, d ∪ s0) l h'). split.
      { simpl. rewrite Hcfgi, Hci. done. }
      split; simpl.
      * intros sec. rewrite Htop.
        destruct (decide (i = sec)) as [->|Hs].
        -- by rewrite lookup_insert_eq, Hi.
        -- by rewrite lookup_insert_ne.
      * intros sec l' Hsec.
        destruct (decide (i = sec)) as [->|Hs].
        -- assert (l' = l) as -> by congruence.
           rewrite lookup_insert_eq, lookup_alter_eq, (Hobj sec l Hci), Hi.
           by destruct (h !! l).
        -- rewrite lookup_insert_ne by done.
           rewrite lookup_alter_ne; [by apply Hobj|].
           intros ->. apply Hs.
           by injection (DEFAULT_CONFIG_inj _ _ _ Hci Hsec).
    + exists (<[KeyStr i := CImm x]> cfg, h'). split.
      { by destruct x. }
      split; simpl.
      * intros sec. destruct (decide (i = sec)) as [->|Hs].
        -- rewrite !lookup_insert_eq. by destruct x.
        -- rewrite !lookup_insert_ne by congruence. apply Htop.
      * intros sec l Hsec. destruct (decide (i = sec)) as [->|Hs].
        -- rewrite lookup_insert_eq, (Hobj sec l Hsec), Hi. by destruct x.
        -- rewrite lookup_insert_ne by done. by apply Hobj.
Qed.

Lemma DEFAULT_CONFIG_allocated : sections_allocated initial_store.
Proof.
  intros sec l. unfold DEFAULT_CONFIG, initial_store.
  rewrite !lookup_insert, !lookup_singleton.
  repeat case_decide; intros; simplify_eq; eauto.
Qed.





Lemma load_config_writes_through user sec d key v :
  (∀ sec d, user !! sec = Some (VDict d) →
            is_Some (DEFAULT_CONFIG !! KeyStr sec)) →
  user !! sec = Some (VDict d) → d !! key = Some v →
  ∃ c1, load_config (Some (VDict user)) initial_store = Ok c1 ∧
        load_config None c1.2 = Ok (DEFAULT_CONFIG, c1.2) ∧
        cfg_get (DEFAULT_CONFIG, c1.2) sec key = Ok v.
Proof.
  intros Hdom Hd Hdk.
  destruct (merge_loop_spec initial_store user Hdom) as [c [Hc [Htop Hobj]]].
  exists c. split; [done|]. split; [done|].
  destruct (Hdom sec d Hd) as [ci Hci].
  destruct (DEFAULT_CONFIG_refs _ _ Hci) as [l ->].
  destruct (DEFAULT_CONFIG_allocated _ _ Hci) as [s0 Hl].
  unfold cfg_get. simpl. rewrite Hci, (Hobj sec l Hci), Hd, Hl. simpl.
  unfold getitem. by rewrite (lookup_union_Some_l _ _ _ _ Hdk).
Qed.

Lemma override_title_sections sec d :
  override_title !! sec = Some (VDict d) →
  is_Some (DEFAULT_CONFIG !! KeyStr sec).
Proof.
  unfold override_title. intros [<- _]%lookup_singleton_Some. by eexists.
Qed.

(** C10: overriding a key inside a section writes through the shallow copy
    into the nested mapping held by the module-level [DEFAULT_CONFIG]; a
    later call that finds no file returns [DEFAULT_CONFIG] itself, which
    then reads the override.  The second part exhibits a user file for
    which the value read differs from the built-in one. *)
Theorem load_config_leaks_overrides :
  (∀ user sec d key v,
     (∀ sec d, user !! sec = Some (VDict d) →
               is_Some (DEFAULT_CONFIG !! KeyStr sec)) →
     user !! sec = Some (VDict d) → d !! key = Some v →
     ∃ c1, load_config (Some (VDict user)) initial_store = Ok c1 ∧
           load_config None c1.2 = Ok (DEFAULT_CONFIG, c1.2) ∧
           cfg_get (DEFAULT_CONFIG, c1.2) sec key = Ok v) ∧
  (∃ c1 c2,
     load_config (Some (VDict override_title)) initial_store = Ok c1 ∧
     load_config None c1.2 = Ok c2 ∧
     cfg_get c2 "site" "title" = Ok (VStr (u "Mine")) ∧
     default_value "site" "title" = Some (VStr (u "Firstname Lastname"))).
Proof.
  split; [apply load_config_writes_through|].
  destruct (load_config_writes_through override_title "site"
              {[ "title" := VStr (u "Mine") ]} "title" (VStr (u "Mine")))
    as (c1 & H1 & H2 & H3);
    [apply override_title_sections|by vm_compute|by vm_compute|].
  exists c1, (DEFAULT_CONFIG, c1.2).
  split; [exact H1|]. split; [exact H2|]. split; [exact H3|by vm_compute].
Qed.



Lemma load_config_leaks_overrides_witness :
  ∃ c1, load_config (Some (VDict override_title)) initial_store = Ok c1 ∧
        load_config None c1.2 = Ok (DEFAULT_CONFIG, c1.2) ∧
        cfg_get (DEFAULT_CONFIG, c1.2) "site" "title" = Ok (VStr (u "Mine")).
Proof.
  apply (proj1 load_config_leaks_overrides override_title "site"
           {[ "title" := VStr (u "Mine") ]} "title" (VStr (u "Mine"))).
  - apply override_title_sections.
  - by vm_compute.
  - by vm_compute.
Defined.
End load_config_facts.

(** ** Template selection *)

Section template_facts.
Implicit Types (chars s : str) (c : N).

Lemma lstrip_app_all chars p s :
  Forall (λ c, c ∈ chars) p → lstrip chars (p ++ s) = lstrip chars s.
Proof.
  induction 1 as [|c p Hc _ IH]; [done|].
  simpl. by rewrite bool_decide_eq_true_2.
Qed.

Lemma lstrip_stops chars c s : c ∉ chars → lstrip chars (c :: s) = c :: s.
Proof. intros Hc. simpl. by rewrite bool_decide_eq_false_2. Qed.

Lemma rstrip_keeps_head chars c s :
  c ∉ chars → rstrip chars (c :: s) = c :: rstrip chars s.
Proof.
  intros Hc. simpl. destruct (rstrip chars s); [|done].
  by rewrite bool_decide_eq_false_2.
Qed.

Lemma strip_content_prefix content_dir rest :
  slash ∉ content_dir →
  strip content_dir (content_dir ++ slash :: rest)
    = slash :: rstrip content_dir rest.
Proof.
  intros Hs. unfold strip.
  rewrite lstrip_app_all by by apply Forall_forall.
  by rewrite lstrip_stops, rstrip_keeps_head.
Qed.

(** C1: for a file [content_dir/rest] found by the scanner, stripping the
    characters of [content_dir] leaves the separating slash in front, the
    first element of the split is the empty string, and the lookup in the
    table misses: the template is the default whatever the first path
    segment is, [blog] included. *)
Theorem get_template_name_misses_table content_dir rest default :
  slash ∉ content_dir →
  get_template_name (content_dir ++ slash :: rest) content_dir default = default.
Proof.
  intros Hs. unfold get_template_name.
  rewrite strip_content_prefix by done.
  cbn [split hd]. rewrite bool_decide_eq_true_2 by done.
  unfold mappings_get. by rewrite !bool_decide_eq_false_2.
Qed.

Lemma get_template_name_misses_table_witness :
  get_template_name (u "content/blog/post.md") (u "content") (u "page.html")
    = u "page.html"
  ∧ u "page.html" ≠ u "blog.html".
Proof.
  split.
  - apply (get_template_name_misses_table (u "content") (u "blog/post.md")).
    apply (bool_decide_unpack _). by vm_compute.
  - apply (bool_decide_unpack _). by vm_compute.
Defined.
End template_facts.

(** ** Tag normalisation *)

Ltac char_lia :=
  intros;
  unfold slug_char, is_word, is_sep, is_space, is_ascii, is_upper,
    is_lower, is_digit, is_combining, dash, underscore in *;
  repeat progress
    (rewrite ?andb_true_iff, ?orb_true_iff, ?andb_false_iff, ?orb_false_iff,
       ?N.leb_le, ?N.ltb_lt, ?N.leb_gt, ?N.ltb_ge,
       ?bool_decide_eq_true, ?bool_decide_eq_false in *);
  lia.

Section strip_facts.
Implicit Types (chars s : str) (c : N).

Lemma lstrip_suffix chars s : ∃ p, s = p ++ lstrip chars s.
Proof.
  induction s as [|c s [p IH]]; [by exists []|].
  simpl. case_bool_decide; [|by exists []].
  exists (c :: p). simpl. by f_equal.
Qed.

Lemma rstrip_prefix chars s : ∃ t, s = rstrip chars s ++ t.
Proof.
  induction s as [|c s [t IH]]; [by exists []|].
  simpl. destruct (rstrip chars s) as [|d r] eqn:Hr.
  - case_bool_decide; [exists (c :: s)|exists s]; done.
  - exists t. simpl. by f_equal.
Qed.

Lemma strip_Forall (P : N → Prop) chars s :
  Forall P s → Forall P (strip chars s).
Proof.
  intros Hs. unfold strip.
  destruct (lstrip_suffix chars s) as [p Hp].
  destruct (rstrip_prefix chars (lstrip chars s)) as [t Ht].
  rewrite Hp, Ht in Hs.
  by apply Forall_app in Hs as [_ [? _]%Forall_app].
Qed.

Lemma lstrip_head chars s :
  lstrip chars s = [] ∨ ∃ c s', lstrip chars s = c :: s' ∧ c ∉ chars.
Proof.
  induction s as [|c s IH]; [by left|].
  simpl. case_bool_decide; [done|]. right. by exists c, s.
Qed.

Lemma rstrip_cons chars c s :
  rstrip chars (c :: s) =
    match rstrip chars s with
    | [] => if bool_decide (c ∈ chars) then [] else [c]
    | r => c :: r
    end.
Proof. done. Qed.


End strip_facts.

Section collapse_facts.
Implicit Types (s t : str) (c : N) (b : bool).

Lemma collapsed_weaken s : collapsed true s = true → collapsed false s = true.
Proof.
  destruct s as [|c s]; [done|]. simpl.
  destruct (is_sep c); [|done]. by rewrite andb_false_r.
Qed.

Lemma collapsed_suffix b p s :
  collapsed b (p ++ s) = true → collapsed false s = true.
Proof.
  revert b. induction p as [|c p IH]; intros b; simpl.
  - destruct b; [apply collapsed_weaken|done].
  - destruct (is_sep c); [|apply IH].
    intros [_ H]%andb_true_iff. by apply (IH true).
Qed.

Lemma collapsed_prefix b s t :
  collapsed b (s ++ t) = true → collapsed b s = true.
Proof.
  revert b. induction s as [|c s IH]; intros b; simpl; [done|].
  destruct (is_sep c); [|apply IH].
  intros [-> H]%andb_true_iff. by apply IH.
Qed.

Lemma collapse_collapsed b s : collapsed b (collapse b s) = true.
Proof.
  revert b. induction s as [|c s IH]; intros b; simpl; [done|].
  destruct (is_sep c) eqn:Hc.
  - destruct b; [apply IH|]. simpl.
    by rewrite (IH true).
  - simpl. rewrite Hc. apply IH.
Qed.


Lemma collapse_Forall (P : N → Prop) b s :
  P dash → Forall (λ c, is_sep c = false → P c) s → Forall P (collapse b s).
Proof.
  intros Hd Hs. revert b. induction Hs as [|c s Hc _ IH]; intros b; simpl.
  - constructor.
  - destruct (is_sep c) eqn:Hsep.
    + destruct b; [apply IH|]. constructor; [done|apply IH].
    + constructor; [by apply Hc|apply IH].
Qed.

Lemma strip_collapsed chars s :
  collapsed false s = true → collapsed false (strip chars s) = true.
Proof.
  intros Hs. unfold strip.
  destruct (lstrip_suffix chars s) as [p Hp].
  destruct (rstrip_prefix chars (lstrip chars s)) as [t Ht].
  rewrite Hp in Hs. apply collapsed_suffix in Hs.
  rewrite Ht in Hs. by apply collapsed_prefix in Hs.
Qed.
End collapse_facts.

Section char_facts.
Implicit Types (c d : N).




Lemma slug_char_dash : slug_char dash = true.
Proof. done. Qed.

Lemma lower_char_id c : is_upper c = false → lower_char c = c.
Proof. unfold lower_char. by intros ->. Qed.

Lemma lower_char_not_upper c : is_upper (lower_char c) = false.
Proof.
  unfold lower_char. destruct (is_upper c) eqn:Hc; [|done]. revert Hc. char_lia.
Qed.

Lemma lower_char_ascii c : is_ascii c = true → is_ascii (lower_char c) = true.
Proof.
  unfold lower_char. destruct (is_upper c) eqn:Hc; [|done]. revert Hc. char_lia.
Qed.

Lemma kept_slug d :
  is_ascii d = true → is_upper d = false →
  is_word d || is_sep d = true → is_sep d = false → slug_char d = true.
Proof. char_lia. Qed.


End char_facts.

Section normalize_tag_facts.
(** What the proofs use of the library's NFKD: ASCII text is already
    normalised; the ASCII content of the normal form of a concatenation is
    the concatenation of the ASCII contents (decomposition is character by
    character and reordering only moves combining marks, none of which is
    ASCII); and the decomposition of a combining diacritical mark holds no
    ASCII character. *)
Variable nfkd : str → str.
Hypothesis nfkd_ascii :
  ∀ s, Forall (λ c, is_ascii c = true) s → nfkd s = s.
Hypothesis nfkd_ascii_app :
  ∀ s t, ascii_ignore (nfkd (s ++ t))
         = ascii_ignore (nfkd s) ++ ascii_ignore (nfkd t).
Hypothesis nfkd_mark :
  ∀ c, is_combining c = true → ascii_ignore (nfkd [c]) = [].

Implicit Types (s t : str) (c d : N).




(** The shape of every normalised tag. *)
Lemma normalize_tag_shape s :
  Forall (λ c, slug_char c = true) (normalize_tag nfkd s)
  ∧ collapsed false (normalize_tag nfkd s) = true.
Proof.
  unfold normalize_tag. split.
  - apply strip_Forall, collapse_Forall; [done|].
    apply Forall_forall. intros c [Hkept Hc]%list_elem_of_filter Hsep.
    apply list_elem_of_fmap in Hc as (c0 & -> & Hc0).
    apply list_elem_of_filter in Hc0 as [Hascii _].
    apply kept_slug; [|apply lower_char_not_upper|..].
    + apply lower_char_ascii. by destruct (is_ascii c0).
    + by destruct (is_word (lower_char c0) || is_sep (lower_char c0)).
    + done.
  - apply strip_collapsed, collapse_collapsed.
Qed.










End normalize_tag_facts.

(** The sample normalisation satisfies what the proofs assume of NFKD. *)
Section nfkd_sample_facts.
Implicit Types (s t out : str) (c : N).











End nfkd_sample_facts.



(** A closed equation settled by evaluating its two sides. *)
Ltac compute_eq :=
  lazymatch goal with
  | |- _ = ?rhs => vm_cast_no_check (@eq_refl _ rhs)
  end.

(** ** The result monad *)

Lemma result_bind_Ok {A B} (f : A → result B) (a : A) : Ok a ≫= f = f a.
Proof. done. Qed.

Lemma getitem_Some (d : gmap string pyval) key v :
  d !! key = Some v → getitem d key = Ok v.
Proof. unfold getitem. by intros ->. Qed.

Lemma getitem_Ok (d : gmap string pyval) key v :
  getitem d key = Ok v → d !! key = Some v.
Proof. unfold getitem. by destruct (d !! key); intros [= ->]. Qed.

Lemma bind_Ok {A C} (m : result A) (g : A → result C) c :
  m ≫= g = Ok c → ∃ a, m = Ok a ∧ g a = Ok c.
Proof. destruct m as [a|e]; [eauto|done]. Qed.

Lemma bind_raises {A C} (m : result A) (g : A → result C) :
  raises m ∨ (∃ a, m = Ok a ∧ raises (g a)) → raises (m ≫= g).
Proof. intros [[e ->]|(a & -> & H)]; [by exists e|done]. Qed.

Lemma not_ok_raises {A} (m : result A) : ¬ is_ok m → raises m.
Proof. destruct m as [a|e]; [intros []; by exists a|by exists e]. Qed.

Lemma ok_or_raises {A} (m : result A) : is_ok m ∨ raises m.
Proof. destruct m as [a|e]; [left; by exists a|right; by exists e]. Qed.

Section mapM_facts.
Context {A B : Type}.
Implicit Types (f : A → result B) (l : list A) (k : list B).

Lemma mapM_Ok f l k :
  mapM f l = Ok k ↔ Forall2 (λ x y, f x = Ok y) l k.
Proof.
  split.
  - revert k. induction l as [|x l IH]; intros k; simpl.
    + intros [= <-]. constructor.
    + intros (y & Hy & (k' & Hk' & [= <-])%bind_Ok)%bind_Ok.
      constructor; [done|]. by apply IH.
  - induction 1 as [|x y l k Hxy _ IH]; [done|].
    simpl. rewrite Hxy. simpl. by rewrite IH.
Qed.

Lemma mapM_Ok_elem_l f l k x :
  mapM f l = Ok k → x ∈ l → ∃ y, y ∈ k ∧ f x = Ok y.
Proof.
  intros Hk%mapM_Ok. induction Hk as [|x' y l k Hxy _ IH].
  - by intros ?%elem_of_nil.
  - intros [->|Hx]%elem_of_cons.
    + exists y. split; [by left|done].
    + destruct (IH Hx) as (y' & ? & ?). exists y'. split; [by right|done].
Qed.

Lemma mapM_Ok_elem_r f l k y :
  mapM f l = Ok k → y ∈ k → ∃ x, x ∈ l ∧ f x = Ok y.
Proof.
  intros Hk%mapM_Ok. induction Hk as [|x y' l k Hxy _ IH].
  - by intros ?%elem_of_nil.
  - intros [->|Hy]%elem_of_cons.
    + exists x. split; [by left|done].
    + destruct (IH Hy) as (x' & ? & ?). exists x'. split; [by right|done].
Qed.

Lemma mapM_Ok_length f l k : mapM f l = Ok k → length k = length l.
Proof. intros Hk%mapM_Ok. symmetry. by eapply Forall2_length. Qed.

Lemma mapM_is_ok f l : Forall (λ x, is_ok (f x)) l → is_ok (mapM f l).
Proof.
  induction 1 as [|x l [y Hy] _ [k IH]]; [by exists []|].
  exists (y :: k). simpl. rewrite Hy. simpl. by rewrite IH.
Qed.

Lemma mapM_raises f l x : x ∈ l → raises (f x) → raises (mapM f l).
Proof.
  intros Hx Hf. apply not_ok_raises. intros [k Hk].
  destruct (mapM_Ok_elem_l f l k x Hk Hx) as (y & _ & Hy).
  destruct Hf as [e He]. congruence.
Qed.
End mapM_facts.

(** ** Ordering and [sorted] *)

Section datetime_order.
Implicit Types (a b c : datetime).

Lemma dt_lt_spec a b :
  dt_lt a b = true ↔
    year a < year b ∨ (year a = year b ∧
      (month a < month b ∨ (month a = month b ∧
        (day a < day b ∨ (day a = day b ∧ tod a < tod b))))).
Proof.
  unfold dt_lt, dt_compare.
  repeat match goal with
    | |- context [(?x ?= ?y)%Z] => destruct (Z.compare_spec x y)
    end; split; intros; try done; lia.
Qed.

Lemma dt_lt_false_spec a b :
  dt_lt a b = false ↔
    ¬ (year a < year b ∨ (year a = year b ∧
        (month a < month b ∨ (month a = month b ∧
          (day a < day b ∨ (day a = day b ∧ tod a < tod b)))))).
Proof. by rewrite <-not_true_iff_false, dt_lt_spec. Qed.

Lemma dt_lt_asym a b : dt_lt a b = true → dt_lt b a = false.
Proof. rewrite dt_lt_spec, dt_lt_false_spec. lia. Qed.

Lemma dt_le_trans a b c :
  dt_lt b a = false → dt_lt c b = false → dt_lt c a = false.
Proof. rewrite !dt_lt_false_spec. lia. Qed.

Lemma dt_antisym a b : dt_lt a b = false → dt_lt b a = false → a = b.
Proof.
  rewrite !dt_lt_false_spec. destruct a, b; simpl. intros ??.
  f_equal; lia.
Qed.
End datetime_order.

Lemma StronglySorted_reverse {A} (R : relation A) (l : list A) :
  StronglySorted R l → StronglySorted (flip R) (reverse l).
Proof.
  induction 1 as [|x l _ IH Hx]; [constructor|].
  rewrite reverse_cons. apply StronglySorted_app_2; [|done|repeat constructor].
  intros y z Hy ->%list_elem_of_singleton.
  rewrite elem_of_reverse in Hy.
  rewrite Forall_forall in Hx. unfold flip. by apply Hx.
Qed.

Lemma StronglySorted_filter {A} (R : relation A) (P : A → Prop)
    `{∀ x, Decision (P x)} (l : list A) :
  StronglySorted R l → StronglySorted R (filter P l).
Proof.
  induction 1 as [|x l _ IH Hx]; [constructor|].
  rewrite filter_cons. case_decide; [|done].
  constructor; [done|].
  apply Forall_forall. intros y [_ Hy]%list_elem_of_filter.
  rewrite Forall_forall in Hx. by apply Hx.
Qed.

Section sort_pairs_facts.
Context {A : Type}.
Implicit Types (x y : pyval * A) (l r : list (pyval * A)).

Lemma insert_sorted_Permutation x l r :
  insert_sorted x l = Ok r → r ≡ₚ x :: l.
Proof.
  revert r. induction l as [|y l IH]; intros r; simpl.
  - by intros [= <-].
  - intros ([] & Hb & H)%bind_Ok.
    + apply bind_Ok in H as (r' & Hr' & [= <-]).
      rewrite (IH _ Hr'). apply perm_swap.
    + by injection H as <-.
Qed.

Lemma sort_pairs_Permutation l r : sort_pairs l = Ok r → r ≡ₚ l.
Proof.
  revert r. induction l as [|x l IH]; intros r; simpl.
  - by intros [= <-].
  - intros (r' & Hr' & H)%bind_Ok.
    rewrite (insert_sorted_Permutation _ _ _ H). by rewrite (IH _ Hr').
Qed.

Lemma py_lt_dated x y :
  date_keyed x → date_keyed y → ∃ a b,
    x.1 = VDate a ∧ y.1 = VDate b ∧ py_lt x.1 y.1 = Ok (dt_lt a b).
Proof. intros [a Ha] [b Hb]. exists a, b. by rewrite Ha, Hb. Qed.

Lemma key_le_total x y :
  date_keyed x → date_keyed y → py_lt y.1 x.1 = Ok true → key_le y x.
Proof.
  intros [a Ha] [b Hb]. unfold key_le. rewrite Ha, Hb. simpl.
  intros [= H]. by rewrite (dt_lt_asym _ _ H).
Qed.

Lemma key_le_trans x y z :
  date_keyed x → date_keyed y → date_keyed z →
  key_le x y → key_le y z → key_le x z.
Proof.
  intros [a Ha] [b Hb] [c Hc]. unfold key_le. rewrite Ha, Hb, Hc. simpl.
  intros [= H1] [= H2]. by rewrite (dt_le_trans _ _ _ H1 H2).
Qed.

Lemma insert_sorted_dated x l :
  date_keyed x → Forall date_keyed l → is_ok (insert_sorted x l).
Proof.
  intros Hx. induction 1 as [|y l Hy _ [r IH]]; [by eexists|].
  simpl. destruct (py_lt_dated y x Hy Hx) as (b & a & _ & _ & ->). simpl.
  destruct (dt_lt b a); [|by eexists].
  rewrite IH. by eexists.
Qed.

Lemma sort_pairs_dated l : Forall date_keyed l → is_ok (sort_pairs l).
Proof.
  induction 1 as [|x l Hx Hl [r IH]]; [by eexists|].
  simpl. rewrite IH. simpl. apply insert_sorted_dated; [done|].
  by rewrite (sort_pairs_Permutation _ _ IH).
Qed.

Lemma insert_sorted_sorted x l r :
  date_keyed x → Forall date_keyed l → StronglySorted key_le l →
  insert_sorted x l = Ok r → StronglySorted key_le r.
Proof.
  intros Hx Hl Hs. revert r.
  induction Hs as [|y l Hs IH Hy]; intros r; simpl.
  - intros [= <-]. repeat constructor.
  - apply Forall_cons in Hl as [Hyd Hl].
    intros ([] & Hb & H)%bind_Ok.
    + apply bind_Ok in H as (r' & Hr' & [= <-]).
      constructor; [by apply IH|].
      rewrite (insert_sorted_Permutation _ _ _ Hr').
      constructor; [by apply key_le_total|done].
    + injection H as <-. constructor; [by constructor|].
      constructor; [done|].
      rewrite Forall_forall in Hy, Hl. apply Forall_forall. intros z Hz.
      apply (key_le_trans x y z); auto.
Qed.

Lemma sort_pairs_sorted l r :
  Forall date_keyed l → sort_pairs l = Ok r → StronglySorted key_le r.
Proof.
  intros Hl. revert r. induction Hl as [|x l Hx Hl IH]; intros r; simpl.
  - intros [= <-]. constructor.
  - intros (r' & Hr' & H)%bind_Ok.
    eapply insert_sorted_sorted; [done| |by apply IH|done].
    by rewrite (sort_pairs_Permutation _ _ Hr').
Qed.
End sort_pairs_facts.

Section sorted_facts.
Context {A : Type}.
Implicit Types (l r : list A) (key : A → result pyval).

Lemma sorted_Ok_inv l key (rev : bool) r :
  sorted l key rev = Ok r →
  ∃ keys rp,
    mapM key l = Ok keys ∧
    sort_pairs (if rev then reverse (zip keys l) else zip keys l) = Ok rp ∧
    r = (if rev then reverse rp else rp).*2.
Proof.
  unfold sorted. intros (keys & Hkeys & (rp & Hrp & [= <-])%bind_Ok)%bind_Ok.
  by exists keys, rp.
Qed.

Lemma sorted_Permutation l key rev r : sorted l key rev = Ok r → r ≡ₚ l.
Proof.
  intros (keys & rp & Hkeys & Hrp%sort_pairs_Permutation & ->)%sorted_Ok_inv.
  assert (rp ≡ₚ zip keys l) as Hperm.
  { destruct rev; [|done]. by rewrite Hrp, reverse_Permutation. }
  assert ((if rev then reverse rp else rp) ≡ₚ zip keys l) as ->.
  { destruct rev; [|done]. by rewrite reverse_Permutation. }
  rewrite snd_zip; [done|]. by rewrite (mapM_Ok_length _ _ _ Hkeys).
Qed.

Lemma sorted_keys l key rev r x :
  sorted l key rev = Ok r → x ∈ l → is_ok (key x).
Proof.
  intros (keys & rp & Hkeys & _)%sorted_Ok_inv Hx.
  destruct (mapM_Ok_elem_l _ _ _ _ Hkeys Hx) as (k & _ & Hk). by exists k.
Qed.
End sorted_facts.

Section sorted_by_date.
Implicit Types (index r : list item) (rp : list (pyval * item)).

Lemma dated_keys index :
  dated index →
  ∃ keys, mapM date_key index = Ok keys ∧
          Forall (λ x, date_keyed x ∧ decorated x) (zip keys index).
Proof.
  induction 1 as [|post index [d Hd] _ (keys & Hkeys & IH)].
  - exists []. split; [done|constructor].
  - exists (VDate d :: keys). split.
    + apply mapM_Ok. constructor; [by apply getitem_Some|by apply mapM_Ok].
    + constructor; [|done]. split; [by exists d|].
      by apply getitem_Some.
Qed.

Lemma sorted_pairs_items (R1 : relation (pyval * item)) (R2 : relation item) rp :
  (∀ x y, decorated x → decorated y → R1 x y → R2 x.2 y.2) →
  Forall decorated rp → StronglySorted R1 rp → StronglySorted R2 (rp.*2).
Proof.
  intros HR Hd Hs. induction Hs as [|x rp _ IH Hx]; [constructor|].
  apply Forall_cons in Hd as [Hxd Hd]. rewrite fmap_cons.
  constructor; [by apply IH|].
  rewrite Forall_fmap. rewrite Forall_forall in Hx, Hd.
  apply Forall_forall. intros y Hy. simpl. apply HR; auto.
Qed.

Lemma key_le_date_lt (x y : pyval * item) :
  decorated x → decorated y → key_le x y → date_lt y.2 x.2 = false.
Proof.
  unfold decorated, key_le, date_lt. intros -> -> Hlt. by rewrite Hlt.
Qed.

Lemma sorted_dated_is_ok index rev :
  dated index → is_ok (sorted index date_key rev).
Proof.
  intros (keys & Hkeys & Hzip)%dated_keys. unfold sorted. rewrite Hkeys. simpl.
  destruct (sort_pairs_dated
    (if rev then reverse (zip keys index) else zip keys index)) as [rp Hrp].
  { destruct rev; [rewrite Forall_reverse|];
      (eapply Forall_impl; [exact Hzip|]); by intros x [? _]. }
  rewrite Hrp. by eexists.
Qed.

Lemma sorted_dated_pairs index rev r :
  dated index → sorted index date_key rev = Ok r →
  ∃ rp, r = (if rev then reverse rp else rp).*2 ∧
        Forall decorated rp ∧ StronglySorted key_le rp.
Proof.
  intros (keys & Hkeys & Hzip)%dated_keys
    (keys' & rp & Hkeys' & Hrp & ->)%sorted_Ok_inv.
  assert (keys' = keys) as -> by congruence.
  exists rp. split; [done|].
  assert (Forall (λ x, date_keyed x ∧ decorated x)
            (if rev then reverse (zip keys index) else zip keys index)) as Hall.
  { destruct rev; [by rewrite Forall_reverse|done]. }
  split.
  - rewrite (sort_pairs_Permutation _ _ Hrp).
    eapply Forall_impl; [exact Hall|]. by intros x [_ ?].
  - eapply sort_pairs_sorted; [|exact Hrp].
    eapply Forall_impl; [exact Hall|]. by intros x [? _].
Qed.

Lemma sorted_dated_ascending index r :
  dated index → sorted index date_key false = Ok r → ascending r.
Proof.
  intros Hd (rp & -> & Hdec & Hs)%sorted_dated_pairs; [|done].
  eapply sorted_pairs_items; [|done..].
  intros x y ???. by apply key_le_date_lt.
Qed.

Lemma sorted_dated_descending index r :
  dated index → sorted index date_key true = Ok r → descending r.
Proof.
  intros Hd (rp & -> & Hdec & Hs)%sorted_dated_pairs; [|done].
  apply (sorted_pairs_items (flip key_le)).
  - intros x y ?? Hle. by apply key_le_date_lt.
  - by rewrite Forall_reverse.
  - by apply StronglySorted_reverse.
Qed.
End sorted_by_date.

(** ** Index pages and the feed order *)

Lemma NoDup_fmap_elem_inj {A B} (f : A → B) (l : list A) x y :
  NoDup (f <$> l) → x ∈ l → y ∈ l → f x = f y → x = y.
Proof.
  induction l as [|a l IH]; [by intros _ ?%elem_of_nil|].
  rewrite fmap_cons, NoDup_cons. intros [Ha Hl].
  intros [->|Hx]%elem_of_cons [->|Hy]%elem_of_cons Hxy; [done| | |by apply IH].
  - destruct Ha. rewrite Hxy. by apply list_elem_of_fmap_2.
  - destruct Ha. rewrite <-Hxy. by apply list_elem_of_fmap_2.
Qed.

Section listing_facts.
Implicit Types (index full items : list item).

Lemma date_lt_dated (a b : item) da db :
  a !! "date" = Some (VDate da) → b !! "date" = Some (VDate db) →
  date_lt a b = dt_lt da db.
Proof.
  intros Ha Hb. unfold date_lt, date_key.
  rewrite (getitem_Some _ _ _ Ha), (getitem_Some _ _ _ Hb). simpl.
  by destruct (dt_lt da db).
Qed.

Lemma py_slice_to_nonneg {A} n (l : list A) :
  0 ≤ n → py_slice_to n l = take (Z.to_nat n) l.
Proof.
  intros Hn. unfold py_slice_to.
  destruct (Z.ltb_spec n 0); [lia|done].
Qed.

(** C7 (as amended): for a non-negative [posts_per_page] and an index whose
    items all carry timestamps, [build_index] renders two pages; the full
    listing is the index sorted newest first, and the home page holds at
    most [posts_per_page] posts, namely the prefix of the full listing of
    length min(posts_per_page, |index|). *)
Theorem build_index_home_prefix output index config n site_title :
  cfg_get config "build" "posts_per_page" = Ok (VInt n) → 0 ≤ n →
  cfg_get config "site" "title" = Ok site_title →
  dated index →
  ∃ home_page full_page,
    build_index output index config = Ok [home_page; full_page] ∧
    page_posts full_page ≡ₚ index ∧ descending (page_posts full_page) ∧
    Z.of_nat (length (page_posts home_page)) ≤ n ∧
    page_posts home_page
      = take (Z.to_nat (Z.min n (Z.of_nat (length index))))
             (page_posts full_page).
Proof.
  intros Hn Hpos Ht Hdated.
  destruct (sorted_dated_is_ok index true Hdated) as [full Hfull].
  pose proof (sorted_Permutation _ _ _ _ Hfull) as Hperm.
  pose proof (sorted_dated_descending _ _ Hdated Hfull) as Hdesc.
  unfold build_index, listing. rewrite Hn, result_bind_Ok, Ht, result_bind_Ok.
  rewrite Hfull, result_bind_Ok.
  change (slice_to (VInt n) full) with (Ok (py_slice_to n full)).
  rewrite result_bind_Ok, py_slice_to_nonneg by done.
  eexists _, _. split; [done|]. simpl.
  split; [done|]. split; [done|].
  pose proof (Permutation_length Hperm) as Hlen.
  rewrite length_take. split; [lia|].
  destruct (Z.le_gt_cases n (Z.of_nat (length index))).
  - by rewrite Z.min_l.
  - rewrite Z.min_r, Nat2Z.id, <-Hlen by lia.
    rewrite firstn_all. apply take_ge. lia.
Qed.

(** On an index whose items all carry timestamps the listing is sorted
    newest first and the posts handed to the feed library are the posts
    that are not drafts sorted oldest first; when no two of those posts
    share a date, the second order is the reverse of the first on them. *)
Lemma listing_and_feed_items_sorted index :
  dated index →
  ∃ full items,
    listing index = Ok full ∧ feed_items index = Ok items ∧
    full ≡ₚ index ∧
    items ≡ₚ filter (λ post, negb (is_draft post)) index ∧
    descending full ∧ ascending items ∧
    (NoDup ((.!! "date") <$> filter (λ post, negb (is_draft post)) index) →
     items = reverse (filter (λ post, negb (is_draft post)) full)).
Proof.
  intros Hdated.
  assert (dated (filter (λ post, negb (is_draft post)) index)) as Hdated'.
  { apply Forall_forall. intros post [_ Hpost]%list_elem_of_filter.
    revert post Hpost. by apply Forall_forall. }
  destruct (sorted_dated_is_ok index true Hdated) as [full Hfull].
  destruct (sorted_dated_is_ok _ false Hdated') as [items Hitems].
  pose proof (sorted_Permutation _ _ _ _ Hfull) as Hperm.
  pose proof (sorted_Permutation _ _ _ _ Hitems) as Hperm'.
  pose proof (sorted_dated_descending _ _ Hdated Hfull) as Hdesc.
  pose proof (sorted_dated_ascending _ _ Hdated' Hitems) as Hasc.
  exists full, items. do 6 (split; [done|]).
  intros Hnodup.
  apply (StronglySorted_unique_strong (λ a b, date_lt b a = false)).
  - intros x1 x2 Hx1 Hx2 H12 H21.
    rewrite Hperm' in Hx1.
    rewrite elem_of_reverse, Hperm in Hx2.
    apply (NoDup_fmap_elem_inj (.!! "date") _ _ _ Hnodup Hx1 Hx2).
    unfold dated in Hdated'. rewrite Forall_forall in Hdated'.
    destruct (Hdated' _ Hx1) as [d1 Hd1], (Hdated' _ Hx2) as [d2 Hd2].
    rewrite (date_lt_dated _ _ _ _ Hd2 Hd1) in H12.
    rewrite (date_lt_dated _ _ _ _ Hd1 Hd2) in H21.
    rewrite Hd1, Hd2. do 2 f_equal. by apply dt_antisym.
  - done.
  - apply (StronglySorted_reverse (λ a b, date_lt a b = false)).
    by apply StronglySorted_filter.
  - by rewrite reverse_Permutation, Hperm', Hperm.
Qed.
End listing_facts.

Lemma sample_posts_dated : dated [hello_post; second_post].
Proof.
  repeat constructor; [exists jan5|exists feb1]; by vm_compute.
Qed.

(** C7, counterexample: with [posts_per_page: -1] the slice [index[:-1]]
    drops the last post of a two-post listing, so the home page holds one
    post, which is more than [posts_per_page]. *)
Lemma negative_posts_per_page_home :
  ¬ home_is_prefix (u "docs") [second_post; third_post]
      (config_posts_per_page (-1)).
Proof.
  intros (n & home_page & full_page & Hn & Hbuild & Hlen & _).
  vm_compute in Hn. injection Hn as <-.
  vm_compute in Hbuild. injection Hbuild as <- <-.
  simpl in Hlen. lia.
Qed.

Lemma build_index_home_prefix_witness :
  ∃ home_page full_page,
    build_index (u "docs") [hello_post; second_post] default_config
      = Ok [home_page; full_page] ∧
    page_posts full_page ≡ₚ [hello_post; second_post] ∧
    descending (page_posts full_page) ∧
    Z.of_nat (length (page_posts home_page)) ≤ 20 ∧
    page_posts home_page
      = take (Z.to_nat (Z.min 20 (Z.of_nat (length [hello_post; second_post]))))
             (page_posts full_page).
Proof.
  apply (build_index_home_prefix (u "docs") [hello_post; second_post]
           default_config 20 (VStr (u "Firstname Lastname"))).
  - by vm_compute.
  - lia.
  - by vm_compute.
  - exact sample_posts_dated.
Defined.

(** ** Feeds and sitemap *)

Lemma filter_idem {A} (P : A → Prop) `{∀ x, Decision (P x)} (l : list A) :
  filter P (filter P l) = filter P l.
Proof.
  induction l as [|x l IH]; [done|].
  rewrite filter_cons. case_decide; [|done].
  by rewrite filter_cons_True, IH.
Qed.

Section feed_facts.
Variable aware : str → bool.
Implicit Types (index items : list item) (post : item) (config : config).

Lemma feed_items_Permutation index items :
  feed_items index = Ok items →
  items ≡ₚ filter (λ post, negb (is_draft post)) index.
Proof. unfold feed_items. apply sorted_Permutation. Qed.

Lemma build_feeds_Ok_inv output index config fd :
  build_feeds aware output index config = Ok (Some fd) →
  ∃ site_url author items entries,
    cfg_get config "site" "url" = Ok site_url ∧
    cfg_get config "site" "author" = Ok author ∧
    feed_items index = Ok items ∧
    mapM (add_entry aware site_url author) items = Ok entries ∧
    feed_entries fd = reverse entries.
Proof.
  unfold build_feeds. intros (enabled & _ & H)%bind_Ok.
  destruct (negb (truthy enabled)); [done|].
  apply bind_Ok in H as (site_url & Hurl & H).
  apply bind_Ok in H as (site_title & _ & H).
  apply bind_Ok in H as (author & Hauthor & H).
  apply bind_Ok in H as (description & _ & H).
  apply bind_Ok in H as (items & Hitems & H).
  apply bind_Ok in H as (entries & Hentries & [= <-]).
  by exists site_url, author, items, entries.
Qed.

(** The posts behind the entries of the feed document, in its order. *)
Lemma build_feeds_posts output index config fd :
  build_feeds aware output index config = Ok (Some fd) →
  ∃ site_url author items,
    feed_items index = Ok items ∧
    Forall2 (λ post e, add_entry aware site_url author post = Ok e)
            (reverse items) (feed_entries fd).
Proof.
  intros (site_url & author & items & entries & _ & _ & Hitems & Hentries
          & ->)%build_feeds_Ok_inv.
  exists site_url, author, items. split; [done|].
  apply Forall2_reverse. by apply mapM_Ok.
Qed.

(** C8 (as amended): on an index whose items all carry timestamps the
    listing is sorted newest first.  The posts that are not drafts are
    handed to the feed library oldest first, and since the library puts
    every new entry in front of the earlier ones, the feed document lists
    them newest first as well; when no two of those posts share a date, the
    order of the feed document is the order of the listing on them. *)
Theorem feed_lists_newest_first output index config fd :
  dated index →
  build_feeds aware output index config = Ok (Some fd) →
  ∃ full posts site_url author,
    listing index = Ok full ∧ full ≡ₚ index ∧ descending full ∧
    Forall2 (λ post e, add_entry aware site_url author post = Ok e)
            posts (feed_entries fd) ∧
    posts ≡ₚ filter (λ post, negb (is_draft post)) index ∧
    descending posts ∧
    feed_items index = Ok (reverse posts) ∧ ascending (reverse posts) ∧
    (NoDup ((.!! "date") <$> filter (λ post, negb (is_draft post)) index) →
     posts = filter (λ post, negb (is_draft post)) full).
Proof.
  intros Hdated (site_url & author & items' & Hitems' & Hposts)
    %build_feeds_posts.
  destruct (listing_and_feed_items_sorted index Hdated)
    as (full & items & Hfull & Hitems & Hperm & Hperm' & Hdesc & Hasc & Hrev).
  assert (items' = items) as -> by congruence.
  exists full, (reverse items), site_url, author.
  rewrite reverse_involutive. do 4 (split; [done|]).
  split; [by rewrite reverse_Permutation|].
  split; [by apply (StronglySorted_reverse (λ a b, date_lt b a = false))|].
  do 2 (split; [done|]).
  intros Hnodup. by rewrite (Hrev Hnodup), reverse_involutive.
Qed.

Lemma build_sitemap_Ok_inv output index config sm :
  build_sitemap output index config = Ok sm →
  ∃ site_url,
    cfg_get config "site" "url" = Ok site_url ∧
    mapM (sitemap_entry site_url)
         (filter (λ post, negb (is_draft post)) index) = Ok sm.
Proof.
  unfold build_sitemap. intros (site_url & Hurl & H)%bind_Ok.
  by exists site_url.
Qed.

Lemma not_draft_filter index post :
  post ∈ filter (λ post, negb (is_draft post)) index ↔
  post ∈ index ∧ is_draft post = false.
Proof.
  rewrite list_elem_of_filter. destruct (is_draft post); simpl; naive_solver.
Qed.


Lemma sitemap_entry_Ok site_url post e :
  sitemap_entry site_url post = Ok e →
  is_Some (post !! "url") ∧ ∃ d, post !! "date" = Some (VDate d).
Proof.
  unfold sitemap_entry. intros (url & Hurl%getitem_Ok & H)%bind_Ok.
  apply bind_Ok in H as (date & Hdate%getitem_Ok & H).
  apply bind_Ok in H as (d & Hd & _).
  destruct date; try done. injection Hd as ->. eauto.
Qed.

(** C6: the feed and the sitemap are built from the posts that are not
    drafts only, whatever the configuration (and so whatever
    [include_drafts] let into the index): removing the drafts from the
    index changes neither result, and every feed entry and every [<url>]
    element is made from a post of the index whose draft flag is not
    set. *)
Theorem drafts_absent_from_feed_and_sitemap output index config :
  build_feeds aware output index config
    = build_feeds aware output
        (filter (λ post, negb (is_draft post)) index) config
  ∧ build_sitemap output index config
    = build_sitemap output (filter (λ post, negb (is_draft post)) index) config
  ∧ (∀ fd e, build_feeds aware output index config = Ok (Some fd) →
       e ∈ feed_entries fd →
       ∃ site_url author post,
         post ∈ index ∧ is_draft post = false ∧
         add_entry aware site_url author post = Ok e)
  ∧ (∀ sm e, build_sitemap output index config = Ok sm → e ∈ sm →
       ∃ site_url post,
         post ∈ index ∧ is_draft post = false ∧
         sitemap_entry site_url post = Ok e).
Proof.
  split; [|split; [|split]].
  - unfold build_feeds, feed_items. by rewrite filter_idem.
  - unfold build_sitemap. by rewrite filter_idem.
  - intros fd e (site_url & author & items & entries & _ & _ & Hitems
                 & Hentries & ->)%build_feeds_Ok_inv He.
    rewrite elem_of_reverse in He.
    destruct (mapM_Ok_elem_r _ _ _ _ Hentries He) as (post & Hpost & Hadd).
    rewrite (feed_items_Permutation _ _ Hitems) in Hpost.
    apply not_draft_filter in Hpost as [? ?].
    by exists site_url, author, post.
  - intros sm e (site_url & _ & Hsm)%build_sitemap_Ok_inv He.
    destruct (mapM_Ok_elem_r _ _ _ _ Hsm He) as (post & Hpost & Hentry).
    apply not_draft_filter in Hpost as [? ?].
    by exists site_url, post.
Qed.


Lemma build_sitemap_needs_keys output index config sm post :
  build_sitemap output index config = Ok sm →
  post ∈ index → is_draft post = false →
  is_Some (post !! "url") ∧ ∃ d, post !! "date" = Some (VDate d).
Proof.
  intros (site_url & _ & Hsm)%build_sitemap_Ok_inv Hpost Hdraft.
  assert (post ∈ filter (λ post, negb (is_draft post)) index) as Hin
    by by apply not_draft_filter.
  destruct (mapM_Ok_elem_l _ _ _ _ Hsm Hin) as (e & _ & He).
  by eapply sitemap_entry_Ok.
Qed.

End feed_facts.

(** ** Date archives *)

Section archive_facts.
Implicit Types (index : list item) (post : item)
  (articles : list (str * list item)).

Lemma archive_post_text_date articles post s :
  post !! "date" = Some (VStr s) →
  archive_post articles post = Raise AttributeError.
Proof.
  intros Hd. unfold archive_post. by rewrite (getitem_Some _ _ _ Hd).
Qed.

Lemma archive_posts_raises articles index post :
  post ∈ index → (∀ a, raises (archive_post a post)) →
  raises (archive_posts articles index).
Proof.
  intros Hin Hpost. revert articles.
  induction index as [|p index IH]; intros articles.
  - by apply elem_of_nil in Hin.
  - simpl. apply elem_of_cons in Hin as [<-|Hin].
    + apply bind_raises. by left.
    + apply bind_raises. destruct (archive_post articles p) as [a|e].
      * right. exists a. split; [done|]. by apply IH.
      * left. by exists e.
Qed.

Lemma build_date_archives_text_date output index config post s :
  post ∈ index → post !! "date" = Some (VStr s) →
  raises (build_date_archives output index config).
Proof.
  intros Hin Hd. unfold build_date_archives. apply bind_raises. left.
  apply (archive_posts_raises _ _ post); [done|].
  intros a. exists AttributeError. by eapply archive_post_text_date.
Qed.

(** C3: a post whose [date] was left as text makes [build_date_archives]
    raise (a string has no [strftime]), whatever else the index holds; the
    build, which runs the index pages, the tag pages and then the
    archives, therefore never completes on such an index. *)
Theorem text_date_aborts_build nfkd aware output index config post s :
  post ∈ index → post !! "date" = Some (VStr s) →
  raises (build_date_archives output index config)
  ∧ raises (build_site nfkd aware output index config).
Proof.
  intros Hin Hd.
  pose proof (build_date_archives_text_date output index config post s Hin Hd)
    as Harch.
  split; [done|]. unfold build_site.
  destruct (build_index output index config) as [ip|e]; [|by exists e].
  rewrite result_bind_Ok.
  destruct (build_tags nfkd output index config) as [tp|e]; [|by exists e].
  rewrite result_bind_Ok.
  destruct Harch as [e ->]. by exists e.
Qed.

Lemma text_date_aborts_build_witness :
  posts_of_pages (build_index (u "docs") [undated_post] default_config)
    = Ok [[undated_post]; [undated_post]]
  ∧ build_date_archives (u "docs") [undated_post] default_config
    = Raise AttributeError
  ∧ raises (build_date_archives (u "docs") [undated_post] default_config)
  ∧ raises (build_site nfkd_sample no_zone (u "docs") [undated_post]
              default_config).
Proof.
  split; [compute_eq|]. split; [compute_eq|].
  apply (text_date_aborts_build nfkd_sample no_zone (u "docs") [undated_post]
           default_config undated_post (u "tomorrow")).
  - by left.
  - compute_eq.
Defined.
End archive_facts.

(** ** Tag pages *)

Section tag_facts.
Variable nfkd : str → str.
Implicit Types (index : list item) (tags : list str).

Lemma insert_str_Permutation x tags : insert_str x tags ≡ₚ x :: tags.
Proof.
  induction tags as [|y tags IH]; [done|].
  simpl. destruct (str_lt y x); [|done].
  rewrite IH. apply perm_swap.
Qed.

Lemma sort_strs_Permutation tags : sort_strs tags ≡ₚ tags.
Proof.
  induction tags as [|x tags IH]; [done|].
  unfold sort_strs in *. simpl. by rewrite insert_str_Permutation, IH.
Qed.

Lemma group_posts_is_ok by_tags index tl :
  mapM post_tags index = Ok tl → is_ok (group_posts nfkd by_tags index).
Proof.
  intros Htl%mapM_Ok. revert by_tags.
  induction Htl as [|post t index tl Ht _ IH]; intros by_tags.
  - by eexists.
  - simpl. unfold group_post. rewrite Ht, !result_bind_Ok. apply IH.
Qed.

Lemma fst_tag_urls (g : str → str) tags :
  ((λ tag, (tag, g tag)) <$> tags).*1 = tags.
Proof.
  induction tags as [|x tags IH]; [done|]. rewrite !fmap_cons. by f_equal.
Qed.

(** C4: the tag index is made distinct and sorted before the tags are
    normalised, not after.  Whenever two different tags of the index have
    the same slug, the list of slugs on the tag-index page holds that slug
    more than once. *)
Theorem build_tags_repeats_slug output index config site_title tags a b :
  cfg_get config "site" "title" = Ok site_title →
  all_tags index = Ok tags → a ∈ tags → b ∈ tags → a ≠ b →
  normalize_tag nfkd a = normalize_tag nfkd b →
  ∃ tag_page pages,
    build_tags nfkd output index config = Ok (tag_page :: pages) ∧
    page_template tag_page = "tags.html" ∧
    ¬ NoDup ((page_tags tag_page).*1).
Proof.
  intros Htitle Htags Ha Hb Hab Hslug.
  pose proof Htags as Htags'. unfold all_tags in Htags'.
  apply bind_Ok in Htags' as (tl & Htl & _).
  destruct (group_posts_is_ok [] index tl Htl) as [by_tags Hgroup].
  unfold build_tags, tag_index_slugs.
  rewrite Htitle, result_bind_Ok, Htags, !result_bind_Ok, Hgroup,
    result_bind_Ok.
  eexists _, _. split; [done|]. split; [done|]. simpl.
  rewrite fst_tag_urls. intros Hnodup. apply Hab.
  apply (NoDup_fmap_elem_inj (normalize_tag nfkd) _ _ _ Hnodup);
    [..|done]; by rewrite sort_strs_Permutation, elem_of_remove_dups.
Qed.
End tag_facts.

Lemma build_tags_repeats_slug_witness :
  ∃ tag_page pages,
    build_tags nfkd_sample (u "docs") [go_post] default_config
      = Ok (tag_page :: pages) ∧
    page_template tag_page = "tags.html" ∧
    ¬ NoDup ((page_tags tag_page).*1).
Proof.
  apply (build_tags_repeats_slug nfkd_sample (u "docs") [go_post]
           default_config (VStr (u "Firstname Lastname"))
           [u "Go"; u "go"] (u "Go") (u "go")).
  - compute_eq.
  - compute_eq.
  - by left.
  - right. by left.
  - by vm_compute.
  - compute_eq.
Defined.

(** The same order of operations leaves the slugs unsorted: ["B"] sorts
    before ["a"], and their slugs come out as ["b"; "a"]; and the repeated
    slug of the post tagged ["Go"] and ["go"] is listed twice. *)
Lemma tag_index_slugs_examples :
  tag_index_slugs nfkd_sample [mixed_case_post] = Ok [u "b"; u "a"]
  ∧ tag_index_slugs nfkd_sample [go_post] = Ok [u "go"; u "go"].
Proof. split; compute_eq. Qed.

Lemma two_posts_dated : dated [first_post; second_post].
Proof.
  repeat constructor; [exists jan5|exists feb1]; by vm_compute.
Qed.

Lemma two_post_feed_built :
  build_feeds no_zone (u "docs") [first_post; second_post] default_config
    = Ok (Some two_post_feed).
Proof. compute_eq. Qed.

(** C8, counterexample: for two posts published on different days the feed
    document lists the later post first.  Its entries are not in ascending
    order of date, and their order is that of the listing, not its
    reverse. *)
Lemma feed_not_oldest_first :
  ¬ feed_reverses_listing no_zone (u "docs") [first_post; second_post]
      default_config.
Proof.
  intros (full & fd & site_url & author & _ & Hfd & _ & Hasc & _).
  rewrite two_post_feed_built in Hfd. injection Hfd as <-.
  apply StronglySorted_inv in Hasc as [_ Hall].
  apply Forall_cons in Hall as [Hlt _]. by vm_compute in Hlt.
Qed.

Lemma feed_lists_newest_first_witness :
  ∃ full posts site_url author,
    listing [first_post; second_post] = Ok full ∧
    full ≡ₚ [first_post; second_post] ∧ descending full ∧
    Forall2 (λ post e, add_entry no_zone site_url author post = Ok e)
            posts (feed_entries two_post_feed) ∧
    posts ≡ₚ filter (λ post, negb (is_draft post)) [first_post; second_post] ∧
    descending posts ∧
    feed_items [first_post; second_post] = Ok (reverse posts) ∧
    ascending (reverse posts) ∧
    (NoDup ((.!! "date") <$>
        filter (λ post, negb (is_draft post)) [first_post; second_post]) →
     posts = filter (λ post, negb (is_draft post)) full).
Proof.
  apply (feed_lists_newest_first no_zone (u "docs") [first_post; second_post]
           default_config two_post_feed).
  - exact two_posts_dated.
  - exact two_post_feed_built.
Defined.

Lemma drafts_absent_from_feed_and_sitemap_witness :
  build_feeds no_zone (u "docs") [draft_post; second_post] default_config
    = build_feeds no_zone (u "docs") [second_post] default_config
  ∧ build_sitemap (u "docs") [draft_post; second_post] default_config
    = build_sitemap (u "docs") [second_post] default_config.
Proof.
  destruct (drafts_absent_from_feed_and_sitemap no_zone (u "docs")
              [draft_post; second_post] default_config) as (Hf & Hs & _).
  assert (filter (λ post, negb (is_draft post)) [draft_post; second_post]
          = [second_post]) as Hfilter by compute_eq.
  rewrite Hfilter in Hf, Hs. by split.
Defined.


(** * Further properties of the code *)

(** ** The shape of a normalised tag *)

Section strip_ends.
Implicit Types (chars s : str) (c : N).

Lemma rstrip_last chars s c : last (rstrip chars s) = Some c → c ∉ chars.
Proof.
  induction s as [|c0 s IH]; [done|].
  rewrite rstrip_cons. destruct (rstrip chars s) as [|d r] eqn:Hr.
  - case_bool_decide as Hc0; [done|]. by intros [= <-].
  - rewrite last_cons_cons. apply IH.
Qed.

Lemma strip_head chars s c : head (strip chars s) = Some c → c ∉ chars.
Proof.
  unfold strip. destruct (lstrip_head chars s) as [->|(c0 & s' & -> & Hc0)];
    [done|].
  rewrite rstrip_keeps_head by done. by intros [= <-].
Qed.

Lemma strip_last chars s c : last (strip chars s) = Some c → c ∉ chars.
Proof. apply rstrip_last. Qed.
End strip_ends.

Lemma collapsed_no_double_dash s p q :
  collapsed false s = true → s ≠ p ++ [dash; dash] ++ q.
Proof.
  intros Hs ->. by apply collapsed_suffix in Hs.
Qed.

(** Whatever the Unicode normalisation does, a normalised tag is made of
    [a-z], [0-9], [_] and [-] only, has no two dashes in a row, and neither
    begins nor ends with a dash or an underscore. *)
Theorem normalize_tag_url_safe (nfkd : str → str) (s : str) :
  Forall (λ c, slug_char c = true) (normalize_tag nfkd s)
  ∧ (∀ p q, normalize_tag nfkd s ≠ p ++ [dash; dash] ++ q)
  ∧ (∀ c, head (normalize_tag nfkd s) = Some c → c ≠ dash ∧ c ≠ underscore)
  ∧ (∀ c, last (normalize_tag nfkd s) = Some c → c ≠ dash ∧ c ≠ underscore).
Proof.
  destruct (normalize_tag_shape nfkd s) as [Hchars Hcoll].
  split; [done|]. split; [|split].
  - intros p q. by apply collapsed_no_double_dash.
  - intros c Hc%strip_head. split; intros ->; apply Hc; set_solver.
  - intros c Hc%strip_last. split; intros ->; apply Hc; set_solver.
Qed.

(** ** When the configuration loader succeeds, and what it leaves behind *)

Section load_config_more.
Implicit Types (user : gmap string pyval) (h : store) (sec key : string)
  (file elt : pyval) (l keys : list pyval).

Lemma merge_loop_outcome h user :
  (∃ k d, user !! k = Some (VDict d) ∧ DEFAULT_CONFIG !! KeyStr k = None ∧
          map_fold (λ key, merge_key (KeyStr key)) (Ok (DEFAULT_CONFIG, h)) user
            = Raise (KeyError k))
  ∨ ((∀ sec d, user !! sec = Some (VDict d) →
               is_Some (DEFAULT_CONFIG !! KeyStr sec)) ∧
     ∃ c, map_fold (λ key, merge_key (KeyStr key)) (Ok (DEFAULT_CONFIG, h)) user
            = Ok c ∧
          ∀ sec, user !! sec = None →
                 c.1 !! KeyStr sec = DEFAULT_CONFIG !! KeyStr sec).
Proof.
  apply (map_fold_weak_ind (λ r m,
    (∃ k d, m !! k = Some (VDict d) ∧ DEFAULT_CONFIG !! KeyStr k = None ∧
            r = Raise (KeyError k))
    ∨ ((∀ sec d, m !! sec = Some (VDict d) →
                 is_Some (DEFAULT_CONFIG !! KeyStr sec)) ∧
       ∃ c, r = Ok c ∧
            ∀ sec, m !! sec = None →
                   c.1 !! KeyStr sec = DEFAULT_CONFIG !! KeyStr sec)));
    clear user.
  - right. split; [by intros sec d; rewrite lookup_empty|].
    by exists (DEFAULT_CONFIG, h).
  - intros i x m r Hi [(k & d & Hk & Hbad & ->)|(Hgood & [cfg h'] & -> & Hrest)].
    + left. exists k, d. split; [|done].
      rewrite lookup_insert_ne; [done|]. intros ->. congruence.
    + simpl in Hrest. pose proof (Hrest i Hi) as Hcfgi.
      destruct (decide (is_dict x = true)) as [Hx|Hx].
      * destruct x as [| | | | | |d]; try done.
        destruct (DEFAULT_CONFIG !! KeyStr i) as [ci|] eqn:Hci.
        -- destruct (DEFAULT_CONFIG_refs _ _ Hci) as [l ->].
           right. split.
           { intros sec d'. rewrite lookup_insert. case_decide; [subst; eauto|].
             apply Hgood. }
           exists (cfg, alter (λ s0, d ∪ s0) l h'). split.
           { simpl. by rewrite Hcfgi. }
           intros sec. rewrite lookup_insert. case_decide; [done|]. apply Hrest.
        -- left. exists i, d. split; [by rewrite lookup_insert_eq|].
           split; [done|]. simpl. by rewrite Hcfgi.
      * right. split.
        { intros sec d'. rewrite lookup_insert. case_decide; [|apply Hgood].
          intros [= ->]. done. }
        exists (<[KeyStr i := CImm x]> cfg, h'). split; [by destruct x|].
        intros sec. rewrite lookup_insert. case_decide; [done|].
        intros Hsec. simpl. rewrite lookup_insert_ne by congruence.
        by apply Hrest.
Qed.

Lemma merge_items_raise l keys e :
  foldl (merge_item l) (Raise e) keys = Raise e.
Proof. induction keys as [|elt keys IH]; [done|]. simpl. apply IH. Qed.

Lemma list_getitem_Ok l elt v :
  list_getitem l elt = Ok v → is_Some (as_int elt).
Proof. unfold list_getitem. by destruct (as_int elt); [eexists|]. Qed.

Lemma merge_items_outcome l keys (c : config) :
  (∀ i cv, c.1 !! KeyInt i = Some cv → ∃ v, cv = CImm v) →
  is_ok (foldl (merge_item l) (Ok c) keys)
  ↔ Forall (λ elt, ∃ v, list_getitem l elt = Ok v ∧ is_dict v = false) keys.
Proof.
  revert c. induction keys as [|elt keys IH]; intros c Hc.
  { split; [constructor|]. intros _. by exists c. }
  cbn [foldl]. rewrite Forall_cons.
  destruct (list_getitem l elt) as [v|e] eqn:Hv.
  2:{ assert (merge_item l (Ok c) elt = Raise e) as ->.
      { unfold merge_item. by rewrite result_bind_Ok, Hv. }
      rewrite merge_items_raise. split; [by intros [? [=]]|].
      by intros [(v & [=] & _) _]. }
  destruct (list_getitem_Ok _ _ _ Hv) as [i Hi].
  destruct (is_dict v) eqn:Hdict.
  - assert (raises (merge_item l (Ok c) elt)) as [e ->].
    { unfold merge_item. rewrite result_bind_Ok, Hv, result_bind_Ok, Hi.
      destruct v as [| | | | | |d]; try done. destruct c as [cfg h]. simpl.
      destruct (cfg !! KeyInt i) as [[l0|v0]|] eqn:Hcfg; [|by eexists..].
      by destruct (Hc i _ Hcfg). }
    rewrite merge_items_raise. split; [by intros [? [=]]|].
    intros [(v' & [= <-] & Hv') _]. congruence.
  - assert (merge_item l (Ok c) elt = Ok (<[KeyInt i := CImm v]> c.1, c.2))
      as ->.
    { unfold merge_item. rewrite result_bind_Ok, Hv, result_bind_Ok, Hi.
      destruct c as [cfg h]. by destruct v. }
    rewrite IH.
    + split; [intros ?; split; [by exists v|done]|by intros [_ ?]].
    + intros i' cv. simpl. rewrite lookup_insert.
      case_decide; [intros [= <-]; by eexists|apply Hc].
Qed.

(** [load_config] returns exactly for the files described by [loadable].  A
    mapping with a mapping under an unknown key makes it raise [KeyError]
    for such a key ([config[key].update] on a key the defaults do not have);
    an empty file, which parses to [None], a number, a timestamp or a
    non-empty string stop the loop with [TypeError]. *)
Theorem load_config_succeeds_iff file h :
  (is_ok (load_config (Some file) h) ↔ loadable file)
  ∧ (∀ user, file = VDict user → ¬ loadable file →
       ∃ k d, user !! k = Some (VDict d) ∧ DEFAULT_CONFIG !! KeyStr k = None ∧
              load_config (Some file) h = Raise (KeyError k))
  ∧ (is_dict file = false → (∀ l, file ≠ VList l) → ¬ loadable file →
       load_config (Some file) h = Raise TypeError).
Proof.
  split; [|split].
  - destruct file as [| | |s| |l|user]; simpl;
      try (split; [by intros [? [=]]|done]).
    + destruct s; [split; [done|by eexists]|split; [by intros [? [=]]|done]].
    + apply merge_items_outcome. intros i cv.
      by rewrite DEFAULT_CONFIG_no_int.
    + destruct (merge_loop_outcome h user)
        as [(k & d & Hk & Hbad & Hr)|(Hgood & c & Hr & _)].
      * rewrite Hr. split; [by intros [c [=]]|].
        intros Hgood. destruct (Hgood k d Hk) as [ci Hci]. congruence.
      * split; [done|]. intros _. by exists c.
  - intros user -> Hbad. simpl in *.
    destruct (merge_loop_outcome h user)
      as [(k & d & Hk & Hnone & Hr)|(Hgood & _)]; [|done].
    by exists k, d.
  - intros Hdict Hlist Hbad.
    destruct file as [| | |s| |l|user]; simpl in *; try done.
    + by destruct s.
    + by destruct (Hlist l).
Qed.

Lemma load_config_succeeds_iff_witness :
  (is_ok (load_config (Some VNone) initial_store) ↔ loadable VNone)
  ∧ (∀ user, VNone = VDict user → ¬ loadable VNone →
       ∃ k d, user !! k = Some (VDict d) ∧ DEFAULT_CONFIG !! KeyStr k = None ∧
              load_config (Some VNone) initial_store = Raise (KeyError k))
  ∧ (is_dict VNone = false → (∀ l, VNone ≠ VList l) → ¬ loadable VNone →
       load_config (Some VNone) initial_store = Raise TypeError).
Proof. apply (load_config_succeeds_iff VNone initial_store). Defined.

(** What a later call reads after an earlier one merged a user file: a
    default key that the file did not set inside a mapping reads as in a
    fresh run.  In particular a section that the file replaced outright by a
    plain value is a mapping with its built-in keys again: only the keys set
    inside mappings leak (they are the subject of C10). *)
Theorem load_config_later_reads user sec key :
  (∀ sec d, user !! sec = Some (VDict d) →
            is_Some (DEFAULT_CONFIG !! KeyStr sec)) →
  nested_absent user sec key →
  ∃ c1, load_config (Some (VDict user)) initial_store = Ok c1 ∧
        load_config None c1.2 = Ok (DEFAULT_CONFIG, c1.2) ∧
        cfg_get (DEFAULT_CONFIG, c1.2) sec key = cfg_get default_config sec key.
Proof.
  intros Hdom Habs.
  destruct (merge_loop_spec initial_store user Hdom) as [c [Hc [Htop Hobj]]].
  exists c. split; [done|]. split; [done|].
  unfold cfg_get, default_config. simpl.
  destruct (DEFAULT_CONFIG !! KeyStr sec) as [ci|] eqn:Hci; [|done].
  destruct (DEFAULT_CONFIG_refs _ _ Hci) as [l ->].
  destruct (DEFAULT_CONFIG_allocated _ _ Hci) as [s0 Hl].
  rewrite (Hobj sec l Hci), Hl. simpl.
  destruct (user !! sec) as [v|] eqn:Hv; [|done].
  destruct v as [| | | | | |d]; try done.
  unfold getitem. by rewrite lookup_union_r by by apply Habs.
Qed.

Lemma scalar_site_sections sec d :
  scalar_site !! sec = Some (VDict d) →
  is_Some (DEFAULT_CONFIG !! KeyStr sec).
Proof.
  unfold scalar_site. by intros [_ [=]]%lookup_singleton_Some.
Qed.

Lemma load_config_later_reads_witness :
  ∃ c1, load_config (Some (VDict scalar_site)) initial_store = Ok c1 ∧
        load_config None c1.2 = Ok (DEFAULT_CONFIG, c1.2) ∧
        cfg_get (DEFAULT_CONFIG, c1.2) "site" "title"
          = cfg_get default_config "site" "title".
Proof.
  apply (load_config_later_reads scalar_site "site" "title").
  - apply scalar_site_sections.
  - intros d Hd. unfold scalar_site in Hd.
    by apply lookup_singleton_Some in Hd as [_ [=]].
Defined.
End load_config_more.

(** ** Stability of the sort, and keys of mixed types *)

Section sort_stability.
Context {A : Type}.
Implicit Types (x y : pyval * A) (l r : list (pyval * A)) (d : datetime).

Lemma key_is_not_lt d x y :
  key_is d x = true → key_is d y = true → py_lt y.1 x.1 ≠ Ok true.
Proof.
  unfold key_is. destruct x.1 as [| | | |dx| |]; try done.
  destruct y.1 as [| | | |dy| |]; try done.
  intros ->%bool_decide_eq_true ->%bool_decide_eq_true. simpl.
  intros [= H]. apply dt_lt_spec in H. lia.
Qed.

Lemma insert_sorted_filter d x l r :
  insert_sorted x l = Ok r →
  filter (λ p, key_is d p) r = filter (λ p, key_is d p) (x :: l).
Proof.
  revert r. induction l as [|y l IH]; intros r; simpl.
  - by intros [= <-].
  - intros ([] & Hb & H)%bind_Ok; [|by injection H as <-].
    apply bind_Ok in H as (r' & Hr' & [= <-]).
    rewrite (filter_cons _ y), (IH _ Hr'), !(filter_cons _ x), !(filter_cons _ y).
    repeat case_decide; try done.
    destruct (key_is_not_lt d x y); by try apply Is_true_true.
Qed.

Lemma sort_pairs_filter d l r :
  sort_pairs l = Ok r →
  filter (λ p, key_is d p) r = filter (λ p, key_is d p) l.
Proof.
  revert r. induction l as [|x l IH]; intros r; simpl.
  - by intros [= <-].
  - intros (r' & Hr' & H)%bind_Ok.
    rewrite (insert_sorted_filter d _ _ _ H), !(filter_cons _ x).
    by rewrite (IH _ Hr').
Qed.

Lemma py_lt_Ok_kind (a b : pyval) res :
  py_lt a b = Ok res → ∃ k, key_kind a = Some k ∧ key_kind b = Some k.
Proof. destruct a, b; simpl; intros; try done; eauto. Qed.

Lemma insert_sorted_Ok_kind x y l r :
  insert_sorted x (y :: l) = Ok r → key_kind x.1 = key_kind y.1.
Proof.
  simpl. intros (b & (k & Hy & Hx)%py_lt_Ok_kind & _)%bind_Ok. congruence.
Qed.

Lemma sort_pairs_same_kind l r x y :
  sort_pairs l = Ok r → x ∈ l → y ∈ l → key_kind x.1 = key_kind y.1.
Proof.
  revert r x y. induction l as [|z l IH]; intros r x y; simpl.
  - by intros _ ?%elem_of_nil.
  - intros (r' & Hr' & H)%bind_Ok.
    assert (∀ w, w ∈ l → key_kind w.1 = key_kind z.1) as Hz.
    { intros w Hw. destruct r' as [|w' r'].
      - apply sort_pairs_Permutation in Hr'.
        apply Permutation_nil in Hr' as ->. by apply elem_of_nil in Hw.
      - apply insert_sorted_Ok_kind in H. rewrite H.
        apply (IH _ _ _ Hr'); [done|].
        rewrite <-(sort_pairs_Permutation _ _ Hr'). by left. }
    intros [->|Hx]%elem_of_cons [->|Hy]%elem_of_cons; [done| | |].
    + symmetry. by apply Hz.
    + by apply Hz.
    + by rewrite (Hz x), (Hz y).
Qed.
End sort_stability.

Section sorted_items_more.
Implicit Types (index r : list item) (rp : list (pyval * item)) (d : datetime).

Lemma keys_decorated index keys :
  mapM date_key index = Ok keys → Forall decorated (zip keys index).
Proof.
  intros H%mapM_Ok. induction H as [|post k index keys Hk _ IH]; simpl.
  - constructor.
  - by constructor.
Qed.

Lemma keys_zip_elem index keys post :
  mapM date_key index = Ok keys → post ∈ index →
  ∃ k, (k, post) ∈ zip keys index ∧ date_key post = Ok k.
Proof.
  intros H%mapM_Ok. induction H as [|p k index keys Hk _ IH]; simpl.
  - by intros ?%elem_of_nil.
  - intros [->|Hin]%elem_of_cons.
    + exists k. split; [by left|done].
    + destruct (IH Hin) as (k' & ? & ?). exists k'. split; [by right|done].
Qed.

Lemma on_date_decorated d (x : pyval * item) :
  decorated x → on_date d x.2 = key_is d x.
Proof.
  unfold decorated, date_key. intros Hx%getitem_Ok.
  unfold on_date, key_is. by rewrite Hx.
Qed.

Lemma filter_snd_decorated d rp :
  Forall decorated rp →
  filter (λ post, on_date d post) (rp.*2)
  = (filter (λ x, key_is d x) rp).*2.
Proof.
  induction 1 as [|x rp Hx _ IH]; [done|].
  rewrite fmap_cons, !filter_cons, (on_date_decorated d x Hx), IH.
  by case_decide.
Qed.

(** [sorted] is stable in both directions: among the elements with the same
    timestamp it keeps the order of its argument. *)
Lemma sorted_by_date_stable index rev r d :
  sorted index date_key rev = Ok r →
  filter (λ post, on_date d post) r = filter (λ post, on_date d post) index.
Proof.
  intros (keys & rp & Hkeys & Hrp & ->)%sorted_Ok_inv.
  pose proof (keys_decorated _ _ Hkeys) as Hdec.
  assert (filter (λ post, on_date d post) index
          = (filter (λ x, key_is d x) (zip keys index)).*2) as ->.
  { rewrite <-filter_snd_decorated by done.
    rewrite snd_zip; [done|]. by rewrite (mapM_Ok_length _ _ _ Hkeys). }
  assert (Forall decorated rp) as Hdec'.
  { rewrite (sort_pairs_Permutation _ _ Hrp). by destruct rev;
      rewrite ?Forall_reverse. }
  destruct rev.
  - rewrite filter_snd_decorated by by rewrite Forall_reverse.
    rewrite filter_reverse, (sort_pairs_filter d _ _ Hrp), filter_reverse.
    by rewrite reverse_involutive.
  - rewrite filter_snd_decorated by done.
    by rewrite (sort_pairs_filter d _ _ Hrp).
Qed.

(** Posts published at the same instant: the full listing shows them in the
    order in which they were discovered (the sort, newest first, is
    stable), and the feed document shows those that are not drafts in the
    reverse of that order (the sort, oldest first, is stable as well, and
    the feed library puts every new entry in front). *)
Theorem same_instant_order aware output index config d :
  (∀ pages, build_index output index config = Ok pages →
     ∃ home_page full_page,
       pages = [home_page; full_page] ∧
       filter (λ post, on_date d post) (page_posts full_page)
       = filter (λ post, on_date d post) index)
  ∧ (∀ fd, build_feeds aware output index config = Ok (Some fd) →
       ∃ site_url author posts,
         Forall2 (λ post e, add_entry aware site_url author post = Ok e)
                 posts (feed_entries fd) ∧
         filter (λ post, on_date d post) posts
         = reverse (filter (λ post, on_date d post)
                      (filter (λ post, negb (is_draft post)) index))).
Proof.
  split.
  - intros pages. unfold build_index, listing.
    intros (ppp & _ & H)%bind_Ok.
    apply bind_Ok in H as (site_title & _ & H).
    apply bind_Ok in H as (full & Hfull & H).
    apply bind_Ok in H as (home & _ & [= <-]).
    eexists _, _. split; [done|]. cbn [page_posts].
    by eapply sorted_by_date_stable.
  - intros fd (site_url & author & items & Hitems & Hposts)%build_feeds_posts.
    exists site_url, author, (reverse items). split; [done|].
    rewrite filter_reverse. f_equal. by eapply sorted_by_date_stable.
Qed.

Lemma same_instant_order_witness :
  build_index (u "docs") [first_post; second_post; third_post] default_config
    = Ok [ Page (u "docs/index.html") "index.html"
             (VStr (u "Firstname Lastname")) Latest
             [second_post; first_post; third_post] [];
           Page (u "docs/blog/index.html") "index.html"
             (VStr (u "Firstname Lastname"))
             (AllOfIt (VStr (u "Firstname Lastname")))
             [second_post; first_post; third_post] [] ]
  ∧ (∀ fd, build_feeds no_zone (u "docs") [first_post; second_post; third_post]
             default_config = Ok (Some fd) →
       ∃ site_url author posts,
         Forall2 (λ post e, add_entry no_zone site_url author post = Ok e)
                 posts (feed_entries fd) ∧
         filter (λ post, on_date jan5 post) posts
         = reverse (filter (λ post, on_date jan5 post)
                      (filter (λ post, negb (is_draft post))
                         [first_post; second_post; third_post]))).
Proof.
  split; [compute_eq|].
  apply (same_instant_order no_zone (u "docs")
           [first_post; second_post; third_post] default_config jan5).
Defined.

(** An index that holds a post with a timestamp and a post whose date was
    left as text cannot be sorted: [sorted] raises in either direction, and
    so do the index pages. *)
Theorem mixed_dates_cannot_be_sorted index rev a b da sb :
  a ∈ index → b ∈ index →
  a !! "date" = Some (VDate da) → b !! "date" = Some (VStr sb) →
  raises (sorted index date_key rev)
  ∧ ∀ output config, raises (build_index output index config).
Proof.
  intros Ha Hb Hda Hsb.
  assert (∀ rev', raises (sorted index date_key rev')) as Hraises.
  { intros rev'. apply not_ok_raises.
    intros [r (keys & rp & Hkeys & Hrp & _)%sorted_Ok_inv].
    destruct (keys_zip_elem _ _ a Hkeys Ha) as (ka & Hka & Hka').
    destruct (keys_zip_elem _ _ b Hkeys Hb) as (kb & Hkb & Hkb').
    unfold date_key in Hka', Hkb'.
    rewrite (getitem_Some _ _ _ Hda) in Hka'. injection Hka' as <-.
    rewrite (getitem_Some _ _ _ Hsb) in Hkb'. injection Hkb' as <-.
    assert (key_kind (VDate da) = key_kind (VStr sb)) as Hkind; [|done].
    apply (sort_pairs_same_kind _ _ (VDate da, a) (VStr sb, b) Hrp);
      destruct rev'; by rewrite ?elem_of_reverse. }
  split; [done|]. intros output config. unfold build_index, listing.
  destruct (cfg_get config "build" "posts_per_page") as [ppp|e]; [|by exists e].
  rewrite result_bind_Ok.
  destruct (cfg_get config "site" "title") as [t|e]; [|by exists e].
  rewrite result_bind_Ok.
  destruct (Hraises true) as [e ->]. by exists e.
Qed.

Lemma mixed_dates_cannot_be_sorted_witness :
  raises (sorted [hello_post; undated_post] date_key true)
  ∧ ∀ output config, raises (build_index output [hello_post; undated_post] config).
Proof.
  apply (mixed_dates_cannot_be_sorted [hello_post; undated_post] true
           hello_post undated_post jan5 (u "tomorrow")).
  - by left.
  - right. by left.
  - compute_eq.
  - compute_eq.
Defined.
End sorted_items_more.

(** ** Which files join the index *)

Section build_files_facts.
Implicit Types (content output file : str) (config : config)
  (files : list (str * item)) (index : list item) (ctx : item).

Lemma draft_flag_is_draft ctx :
  truthy (get_or ctx "draft" VNone) = is_draft ctx.
Proof. unfold is_draft, get_or. by destruct (ctx !! "draft"). Qed.

Lemma strip_not_startswith_slash content file rest :
  slash ∈ content → startswith (strip content file) (slash :: rest) = false.
Proof.
  intros Hs. pose proof (strip_head content file) as Hhead.
  destruct (strip content file) as [|c s]; [done|]. simpl.
  case_bool_decide as Hc; [|done]. subst c.
  by destruct (Hhead slash).
Qed.

Lemma build_files_Ok_cons content output config file ctx files written index :
  build_files content output config ((file, ctx) :: files)
    = Ok (written, index) →
  ∃ r written' index',
    build_file content output config file ctx = Ok r ∧
    build_files content output config files = Ok (written', index') ∧
    index = match r with
            | Some (_, _, true) => ctx :: index'
            | _ => index'
            end.
Proof.
  simpl. intros (r & Hr & H)%bind_Ok.
  apply bind_Ok in H as ([written' index'] & Hrest & H).
  exists r, written', index'. split; [done|]. split; [done|].
  destruct r as [[[t paths] []]|]; by injection H as <- <-.
Qed.

Lemma build_file_Ok content output config file ctx r :
  build_file content output config file ctx = Ok r →
  match r with
  | Some (_, _, in_blog) =>
      in_blog = startswith (strip content file) (u "/blog")
      ∧ (is_draft ctx = true →
         ∃ v, cfg_get config "build" "include_drafts" = Ok v
              ∧ truthy v = true)
  | None =>
      is_draft ctx = true
      ∧ ∃ v, cfg_get config "build" "include_drafts" = Ok v
             ∧ truthy v = false
  end.
Proof.
  unfold build_file. rewrite draft_flag_is_draft.
  intros (skip & Hskip & H)%bind_Ok.
  destruct (is_draft ctx).
  - apply bind_Ok in Hskip as (v & Hv & [= <-]).
    destruct (truthy v) eqn:Htruthy; simpl in H.
    + apply bind_Ok in H as (paths & _ & [= <-]). split; [done|]. by exists v.
    + injection H as <-. split; [done|]. by exists v.
  - injection Hskip as <-.
    apply bind_Ok in H as (paths & _ & [= <-]). by split.
Qed.

(** The test that lets a file into the index strips the characters of the
    content directory from the file name and then looks for a leading
    ["/blog"].  When the name of the content directory itself contains a
    slash (as in [site/content] or [./content]), that slash is stripped as
    well, no file passes the test, and the index stays empty: the listings,
    the feed and the sitemap are built from no post at all. *)
Theorem slash_in_content_empties_index content output config files written
    index :
  slash ∈ content →
  build_files content output config files = Ok (written, index) →
  index = [].
Proof.
  intros Hs. revert written index.
  induction files as [|[file ctx] files IH]; intros written index.
  - by intros [= <- <-].
  - intros (r & written' & index' & Hr & Hrest & ->)%build_files_Ok_cons.
    apply build_file_Ok in Hr. rewrite (IH _ _ Hrest).
    destruct r as [[[t paths] in_blog]|]; [|done].
    destruct Hr as [-> _]. change (u "/blog") with (slash :: u "blog").
    by rewrite strip_not_startswith_slash.
Qed.

Lemma slash_in_content_empties_index_witness :
  build_files (u "site/content") (u "docs") default_config
    [(u "site/content/blog/hello.md", hello_post)]
    = Ok ([(u "blog.html", [u "docs/hello/index.html"])], [])
  ∧ ([] : list item) = [].
Proof.
  split; [compute_eq|].
  apply (slash_in_content_empties_index (u "site/content") (u "docs")
           default_config [(u "site/content/blog/hello.md", hello_post)]
           [(u "blog.html", [u "docs/hello/index.html"])] []).
  - apply (bool_decide_unpack _). by vm_compute.
  - compute_eq.
Defined.

Lemma rstrip_id chars s :
  (∀ c, last s = Some c → c ∉ chars) → rstrip chars s = s.
Proof.
  induction s as [|c s IH]; [done|]. intros Hlast.
  rewrite rstrip_cons. destruct s as [|c' s].
  - simpl. rewrite bool_decide_eq_false_2; [done|]. by apply Hlast.
  - rewrite IH; [done|]. intros c0 Hc0. apply Hlast.
    by rewrite last_cons_cons.
Qed.

Lemma drop_content content rest :
  drop (S (length content)) (content ++ slash :: rest) = rest.
Proof.
  rewrite (cons_middle slash content rest), app_assoc.
  rewrite drop_app_length'; [done|]. rewrite length_app. simpl. lia.
Qed.

(** Which files make up the index, for a content directory named without a
    slash and the files the scanner finds below it.  A file joins the index
    exactly when its path below the content directory, with trailing
    characters of the directory's name stripped, begins with [blog], and it
    is not a draft being skipped; all other files stay out, and the index
    keeps the order in which the files were found.  When the last
    character of a file name does not occur in the name of the content
    directory (as the [d] of [.md] does not occur in [content]), nothing is
    stripped at the end: the test is that the path below the content
    directory begins with [blog], which holds for the files of the
    directory [blog], but also for a directory [blogroll] and for a file
    [blog.md]. *)
Theorem blog_index_in_discovery_order content output config files written
    index v :
  slash ∉ content →
  Forall (λ f, ∃ rest, f.1 = content ++ slash :: rest) files →
  cfg_get config "build" "include_drafts" = Ok v →
  build_files content output config files = Ok (written, index) →
  index
  = (filter (λ f, startswith (rstrip content (drop (S (length content)) f.1))
                             (u "blog") = true
                  ∧ (is_draft f.2 = true → truthy v = true)) files).*2
  ∧ (∀ f c, f ∈ files → last f.1 = Some c → c ∉ content →
       rstrip content (drop (S (length content)) f.1)
       = drop (S (length content)) f.1).
Proof.
  intros Hs Hfiles Hv Hbuild. split.
  - revert written index Hbuild.
    induction Hfiles as [|[file ctx] files [rest Hfile] _ IH];
      intros written index.
    + by intros [= <- <-].
    + intros (r & written' & index' & Hr & Hrest & ->)%build_files_Ok_cons.
      apply build_file_Ok in Hr. rewrite (IH _ _ Hrest).
      change ((file, ctx).1) with file in Hfile. subst file.
      rewrite filter_cons.
      change ((content ++ slash :: rest, ctx).1)
        with (content ++ slash :: rest).
      change ((content ++ slash :: rest, ctx).2) with ctx.
      rewrite drop_content.
      assert (startswith (strip content (content ++ slash :: rest)) (u "/blog")
              = startswith (rstrip content rest) (u "blog")) as Hstart.
      { rewrite strip_content_prefix by done.
        change (u "/blog") with (slash :: u "blog").
        cbn [startswith]. by rewrite bool_decide_eq_true_2. }
      destruct r as [[[t paths] in_blog]|].
      * destruct Hr as [-> Hdraft]. rewrite Hstart.
        destruct (startswith (rstrip content rest) (u "blog")) eqn:Hblog.
        -- rewrite decide_True; [done|]. split; [done|].
           intros (v' & Hv' & ?)%Hdraft. congruence.
        -- rewrite decide_False; [done|]. by intros [? _].
      * destruct Hr as [Hdraft (v' & Hv' & Hfalse)].
        rewrite decide_False; [done|].
        intros [_ H]. specialize (H Hdraft). congruence.
  - intros f c Hf Hlast Hc. apply rstrip_id. intros c' Hc'.
    apply (proj1 (Forall_forall _ _) Hfiles) in Hf as [rest Hrest].
    rewrite Hrest, drop_content in Hc'. rewrite Hrest in Hlast.
    rewrite (cons_middle slash content rest), app_assoc in Hlast.
    destruct rest as [|c0 rest]; [done|].
    rewrite last_app in Hlast. rewrite Hc' in Hlast. by injection Hlast as <-.
Qed.

Lemma blog_index_in_discovery_order_witness :
  build_files (u "content") (u "docs") default_config
    [(u "content/blog/hello.md", hello_post);
     (u "content/blog/wip.md", draft_post);
     (u "content/pages/about.md", third_post);
     (u "content/blog.md", second_post)]
    = Ok ([(u "page.html", [u "docs/hello/index.html"]);
           (u "page.html", [u "docs/blog/third/index.html"]);
           (u "page.html", [u "docs/blog/second/index.html"])],
          [hello_post; second_post])
  ∧ [hello_post; second_post]
    = (filter (λ f, startswith (rstrip (u "content")
                                  (drop (S (length (u "content"))) f.1))
                               (u "blog") = true
                    ∧ (is_draft f.2 = true → truthy (VBool false) = true))
         [(u "content/blog/hello.md", hello_post);
          (u "content/blog/wip.md", draft_post);
          (u "content/pages/about.md", third_post);
          (u "content/blog.md", second_post)]).*2
  ∧ (∀ f c,
       f ∈ [(u "content/blog/hello.md", hello_post);
            (u "content/blog/wip.md", draft_post);
            (u "content/pages/about.md", third_post);
            (u "content/blog.md", second_post)] →
       last f.1 = Some c → c ∉ u "content" →
       rstrip (u "content") (drop (S (length (u "content"))) f.1)
       = drop (S (length (u "content"))) f.1).
Proof.
  assert (build_files (u "content") (u "docs") default_config
    [(u "content/blog/hello.md", hello_post);
     (u "content/blog/wip.md", draft_post);
     (u "content/pages/about.md", third_post);
     (u "content/blog.md", second_post)]
    = Ok ([(u "page.html", [u "docs/hello/index.html"]);
           (u "page.html", [u "docs/blog/third/index.html"]);
           (u "page.html", [u "docs/blog/second/index.html"])],
          [hello_post; second_post])) as Hbuild by compute_eq.
  split; [done|].
  assert (slash ∉ u "content") as Hslash.
  { apply (bool_decide_unpack _). by vm_compute. }
  assert (cfg_get default_config "build" "include_drafts" = Ok (VBool false))
    as Hv by compute_eq.
  refine (blog_index_in_discovery_order (u "content") (u "docs") default_config
            _ _ _ (VBool false) Hslash _ Hv Hbuild).
  repeat constructor.
  - by exists (u "blog/hello.md").
  - by exists (u "blog/wip.md").
  - by exists (u "pages/about.md").
  - by exists (u "blog.md").
Defined.

(** With [include_drafts] off no draft reaches the index, wherever the files
    lie: the filters of the feed and of the sitemap then remove nothing. *)
Theorem drafts_never_indexed content output config files written index v :
  cfg_get config "build" "include_drafts" = Ok v → truthy v = false →
  build_files content output config files = Ok (written, index) →
  Forall (λ post, is_draft post = false) index
  ∧ filter (λ post, negb (is_draft post)) index = index.
Proof.
  intros Hv Hfalse Hbuild.
  assert (Forall (λ post, is_draft post = false) index) as Hall.
  { revert written index Hbuild.
    induction files as [|[file ctx] files IH]; intros written index.
    - intros [= <- <-]. constructor.
    - intros (r & written' & index' & Hr & Hrest & ->)%build_files_Ok_cons.
      apply build_file_Ok in Hr. specialize (IH _ _ Hrest).
      destruct r as [[[t paths] []]|]; [|done..].
      constructor; [|done]. destruct Hr as [_ Hdraft].
      destruct (is_draft ctx); [|done].
      destruct Hdraft as (v' & Hv' & ?); [done|]. congruence. }
  split; [done|]. clear Hbuild.
  induction Hall as [|post index Hpost _ IH]; [done|].
  rewrite filter_cons_True by by rewrite Hpost. by rewrite IH.
Qed.

Lemma drafts_never_indexed_witness :
  Forall (λ post, is_draft post = false) [hello_post]
  ∧ filter (λ post, negb (is_draft post)) [hello_post] = [hello_post].
Proof.
  apply (drafts_never_indexed (u "content") (u "docs") default_config
           [(u "content/blog/hello.md", hello_post);
            (u "content/blog/wip.md", draft_post)]
           [(u "page.html", [u "docs/hello/index.html"])] [hello_post]
           (VBool false)).
  - compute_eq.
  - done.
  - compute_eq.
Defined.

(** A file that joins the index is never rendered with [blog.html]: the
    test for the index wants the stripped name to begin with a slash, and
    the template table is then looked up under the empty name.  This holds
    for every content directory and every file name. *)
Theorem indexed_file_uses_default_template content output config file ctx
    template paths :
  build_file content output config file ctx = Ok (Some (template, paths, true)) →
  template = u "page.html".
Proof.
  unfold build_file. intros (skip & _ & H)%bind_Ok.
  destruct skip; [done|].
  apply bind_Ok in H as (paths' & _ & [= <- _ Hblog]).
  unfold get_template_name.
  destruct (strip content file) as [|c s]; [done|].
  change (u "/blog") with (slash :: u "blog") in Hblog. simpl in Hblog.
  apply andb_true_iff in Hblog as [->%bool_decide_eq_true _].
  cbn [split]. by rewrite bool_decide_eq_true_2.
Qed.

Lemma indexed_file_uses_default_template_witness :
  build_file (u "content") (u "docs") default_config
    (u "content/blog/hello.md") hello_post
    = Ok (Some (u "page.html", [u "docs/hello/index.html"], true))
  ∧ u "page.html" = u "page.html".
Proof.
  assert (build_file (u "content") (u "docs") default_config
            (u "content/blog/hello.md") hello_post
          = Ok (Some (u "page.html", [u "docs/hello/index.html"], true)))
    as Hbuild by compute_eq.
  split; [done|].
  apply (indexed_file_uses_default_template _ _ _ _ _ _ _ Hbuild).
Defined.
End build_files_facts.

(** ** The files a content item is written to *)

Section get_output_paths_facts.
Implicit Types (output file s : str) (ctx : item).

Lemma lstrip_all chars s : Forall (λ c, c ∈ chars) s → lstrip chars s = [].
Proof.
  induction 1 as [|c s Hc _ IH]; [done|].
  simpl. by rewrite bool_decide_eq_true_2.
Qed.

Lemma strip_all chars s : Forall (λ c, c ∈ chars) s → strip chars s = [].
Proof. intros Hs. unfold strip. by rewrite lstrip_all. Qed.

Lemma path_join_empty (p : Path) : path_join p (path_of []) = p.
Proof.
  destruct p as [a ps]. unfold path_join. simpl. by rewrite app_nil_r.
Qed.

(** A page whose [url] is made of slashes only (["/"], say) and that has no
    aliases is written to exactly one file, and that file is the one the
    home page is rendered to afterwards: the page is overwritten by the
    first listing. *)
Theorem url_of_slashes_is_home_file output ctx file s :
  ctx !! "url" = Some (VStr s) → Forall (λ c, c = slash) s →
  ctx !! "aliases" = None →
  get_output_paths output ctx file = Ok [render_file output]
  ∧ ∀ index config pages,
      build_index output index config = Ok pages →
      ∃ home_page full_page,
        pages = [home_page; full_page]
        ∧ page_file home_page = render_file output.
Proof.
  intros Hurl Hs Haliases. split.
  - unfold get_output_paths. rewrite Hurl, Haliases.
    cbn [strip_slashes]. rewrite !result_bind_Ok.
    rewrite strip_all by (eapply Forall_impl; [done|]; intros c ->; set_solver).
    rewrite bool_decide_eq_false_2 by done.
    rewrite app_nil_r, list_fmap_singleton. by rewrite path_join_empty.
  - intros index config pages. unfold build_index.
    intros (ppp & _ & H)%bind_Ok.
    apply bind_Ok in H as (site_title & _ & H).
    apply bind_Ok in H as (full & _ & H).
    apply bind_Ok in H as (home & _ & [= <-]).
    by eexists _, _.
Qed.

Lemma url_of_slashes_is_home_file_witness :
  get_output_paths (u "docs") {[ "url" := VStr (u "/") ]} (u "content/about.md")
    = Ok [render_file (u "docs")]
  ∧ ∀ index config pages,
      build_index (u "docs") index config = Ok pages →
      ∃ home_page full_page,
        pages = [home_page; full_page]
        ∧ page_file home_page = render_file (u "docs").
Proof.
  apply (url_of_slashes_is_home_file (u "docs") {[ "url" := VStr (u "/") ]}
           (u "content/about.md") (u "/")).
  - by vm_compute.
  - by repeat constructor.
  - by vm_compute.
Defined.

(** An item is always written to at least one file: one for its [url] if it
    has one, one for every element drawn from [aliases], and the file named
    after the source when there is neither.  The aliases are whatever
    iterating the value yields, so an alias given as one string counts
    once per character. *)
Theorem get_output_paths_count output ctx file paths :
  get_output_paths output ctx file = Ok paths →
  ∃ aliases,
    py_iter (get_or ctx "aliases" (VList [])) = Ok aliases
    ∧ length paths
      = Nat.max 1 ((match ctx !! "url" with Some _ => 1 | None => 0 end) + length aliases).
Proof.
  unfold get_output_paths, get_or.
  intros (urls1 & Hurls1 & H)%bind_Ok.
  apply bind_Ok in H as (urls2 & Hurls2 & [= <-]).
  assert (length urls1 = match ctx !! "url" with Some _ => 1 | None => 0 end)%nat as Hlen1.
  { destruct (ctx !! "url") as [v|]; [|by injection Hurls1 as <-].
    by apply bind_Ok in Hurls1 as (s & _ & [= <-]). }
  assert (∃ aliases, py_iter (default (VList []) (ctx !! "aliases"))
                       = Ok aliases ∧ length urls2 = length aliases)
    as (aliases & Haliases & Hlen2).
  { destruct (ctx !! "aliases") as [v|]; simpl.
    - apply bind_Ok in Hurls2 as (l & Hl & Hm). exists l. split; [done|].
      by eapply mapM_Ok_length.
    - injection Hurls2 as <-. by exists []. }
  exists aliases. split; [done|]. rewrite length_fmap.
  case_bool_decide as Hnil.
  - apply (f_equal length) in Hnil. rewrite length_app in Hnil. simpl in *. lia.
  - rewrite length_app.
    destruct urls1, urls2; simpl in *; try done; lia.
Qed.

Lemma get_output_paths_count_witness :
  get_output_paths (u "docs") {[ "aliases" := VStr (u "/old") ]}
    (u "content/about.md")
    = Ok [u "docs/index.html"; u "docs/o/index.html"; u "docs/l/index.html";
          u "docs/d/index.html"]
  ∧ ∃ aliases,
      py_iter (get_or ({[ "aliases" := VStr (u "/old") ]} : item) "aliases"
                 (VList [])) = Ok aliases
      ∧ length [u "docs/index.html"; u "docs/o/index.html";
                u "docs/l/index.html"; u "docs/d/index.html"]
        = Nat.max 1
            (match ({[ "aliases" := VStr (u "/old") ]} : item) !! "url"
             with Some _ => 1 | None => 0 end + length aliases).
Proof.
  assert (get_output_paths (u "docs") {[ "aliases" := VStr (u "/old") ]}
            (u "content/about.md")
          = Ok [u "docs/index.html"; u "docs/o/index.html";
                u "docs/l/index.html"; u "docs/d/index.html"]) as Hpaths
    by compute_eq.
  split; [done|].
  apply (get_output_paths_count _ _ _ _ Hpaths).
Defined.
End get_output_paths_facts.

(** ** Grouping into archive and tag pages *)

Section dd_facts.
Context {V : Type}.
Implicit Types (k : str) (v : V) (d : list (str * list V)).

Lemma dd_get_append k v d k' :
  dd_get k' (dd_append k v d)
  = dd_get k' d ++ (if decide (k' = k) then [v] else []).
Proof.
  induction d as [|[k0 vs] d IH]; simpl.
  - by case_decide.
  - destruct (decide (k = k0)) as [->|Hne]; simpl.
    + case_decide; [done|]. by rewrite app_nil_r.
    + destruct (decide (k' = k0)) as [->|Hne']; [|done].
      rewrite decide_False by done. by rewrite app_nil_r.
Qed.

Lemma dd_append_keys k v d :
  (dd_append k v d).*1 = if decide (k ∈ d.*1) then d.*1 else d.*1 ++ [k].
Proof.
  induction d as [|[k0 vs] d IH].
  - rewrite decide_False; [done|]. by intros ?%elem_of_nil.
  - cbn [dd_append]. destruct (decide (k = k0)) as [->|Hne].
    + rewrite !fmap_cons. rewrite decide_True; [done|]. by left.
    + rewrite !fmap_cons, IH. cbn [fst].
      destruct (decide (k ∈ d.*1)) as [Hin|Hnin].
      * rewrite decide_True; [done|]. by right.
      * rewrite decide_False; [done|].
        intros [?|?]%elem_of_cons; done.
Qed.

Lemma dd_append_elem_keys k v d k' :
  k' ∈ (dd_append k v d).*1 ↔ k' = k ∨ k' ∈ d.*1.
Proof.
  rewrite dd_append_keys. case_decide; [|rewrite elem_of_app]; set_solver.
Qed.

Lemma dd_append_NoDup k v d : NoDup d.*1 → NoDup (dd_append k v d).*1.
Proof.
  intros Hd. rewrite dd_append_keys. case_decide; [done|].
  apply NoDup_app. split; [done|]. split; [|apply NoDup_singleton].
  intros x Hx ->%list_elem_of_singleton. done.
Qed.

Lemma dd_get_elem k vs d : NoDup d.*1 → (k, vs) ∈ d → dd_get k d = vs.
Proof.
  induction d as [|[k0 vs0] d IH]; simpl.
  - by intros _ ?%elem_of_nil.
  - intros [Hk0 Hd]%NoDup_cons [[= -> ->]|Hin]%elem_of_cons.
    + by rewrite decide_True.
    + rewrite decide_False; [by apply IH|].
      intros ->. apply Hk0. apply list_elem_of_fmap. by exists (k0, vs).
Qed.

End dd_facts.

Section archive_pages.
Implicit Types (index : list item) (post : item)
  (articles : list (str * list item)) (d : datetime) (path : str).

Lemma archive_paths_NoDup d : NoDup (archive_paths d).
Proof.
  unfold archive_paths, strftime_Ymd, strftime_Ym.
  repeat apply NoDup_cons_2; try apply NoDup_nil_2;
    rewrite ?elem_of_cons, ?elem_of_nil;
    intros H; repeat destruct H as [H|H]; try done;
    apply (f_equal length) in H; rewrite ?length_app in H; simpl in H; lia.
Qed.

Lemma archive_post_inv articles post a :
  archive_post articles post = Ok a →
  ∃ d y m dp,
    post !! "date" = Some (VDate d) ∧ archive_paths d = [y; m; dp]
    ∧ a = dd_append dp post (dd_append m post (dd_append y post articles)).
Proof.
  unfold archive_post. intros (date & Hdate%getitem_Ok & H)%bind_Ok.
  apply bind_Ok in H as (d & Hd & [= <-]).
  destruct date; try done. injection Hd as ->.
  by eexists d, _, _, _.
Qed.

Lemma archive_post_Ok articles post a :
  archive_post articles post = Ok a →
  (∃ d, post !! "date" = Some (VDate d))
  ∧ (∀ path, dd_get path a
             = dd_get path articles
               ++ (if on_path path post then [post] else []))
  ∧ (∀ path, path ∈ a.*1 ↔ on_path path post = true ∨ path ∈ articles.*1)
  ∧ (NoDup articles.*1 → NoDup a.*1).
Proof.
  intros (d & y & m & dp & Hdate & Hpaths & ->)%archive_post_inv.
  pose proof (archive_paths_NoDup d) as Hnodup.
  unfold on_path. rewrite Hdate, Hpaths. rewrite Hpaths in Hnodup.
  apply NoDup_cons in Hnodup as [Hy [Hm _]%NoDup_cons].
  rewrite !elem_of_cons, elem_of_nil in Hy.
  rewrite !elem_of_cons, elem_of_nil in Hm.
  assert (y ≠ m) as Hym by tauto. assert (y ≠ dp) as Hyd by tauto.
  assert (m ≠ dp) as Hmd by tauto. clear Hy Hm.
  split; [by exists d|]. split; [|split].
  - intros path. rewrite !dd_get_append, <-!app_assoc. f_equal.
    destruct (decide (path = y)) as [Hpy|Hpy],
      (decide (path = m)) as [Hpm|Hpm], (decide (path = dp)) as [Hpd|Hpd];
      try congruence; simpl;
      first [ rewrite bool_decide_eq_true_2;
                [done|rewrite !elem_of_cons; tauto]
            | rewrite bool_decide_eq_false_2;
                [done|rewrite !elem_of_cons, elem_of_nil; tauto] ].
  - intros path. rewrite !dd_append_elem_keys, bool_decide_eq_true.
    rewrite !elem_of_cons, elem_of_nil. tauto.
  - intros Ha. by do 3 apply dd_append_NoDup.
Qed.

Lemma archive_posts_Ok articles index a :
  archive_posts articles index = Ok a →
  dated index
  ∧ (∀ path, dd_get path a
             = dd_get path articles ++ filter (λ post, on_path path post) index)
  ∧ (∀ path, path ∈ a.*1 ↔
       (∃ post, post ∈ index ∧ on_path path post = true) ∨ path ∈ articles.*1)
  ∧ (NoDup articles.*1 → NoDup a.*1).
Proof.
  revert articles. induction index as [|post index IH]; intros articles.
  - intros [= <-]. split; [constructor|]. split; [|split; [|done]].
    + intros path. by rewrite app_nil_r.
    + intros path. split; [by right|]. intros [(post & ?%elem_of_nil & _)|?]; done.
  - simpl. intros (a1 & Hpost & Hrest)%bind_Ok.
    apply archive_post_Ok in Hpost as (Hd & Hget1 & Hkeys1 & Hnodup1).
    apply IH in Hrest as (Hdated & Hget & Hkeys & Hnodup).
    split; [by constructor|]. split; [|split].
    + intros path. rewrite Hget, Hget1, <-app_assoc. f_equal.
      rewrite filter_cons. by destruct (on_path path post).
    + intros path. rewrite Hkeys, Hkeys1. split.
      * intros [(p & Hp & Hon)|[Hon|Hin]]; [left|left|by right].
        -- exists p. split; [by right|done].
        -- exists post. split; [by left|done].
      * intros [(p & [->|Hp]%elem_of_cons & Hon)|Hin].
        -- right. by left.
        -- left. by exists p.
        -- right. by right.
    + intros ?. by apply Hnodup, Hnodup1.
Qed.

Lemma archive_posts_dated articles index :
  dated index → is_ok (archive_posts articles index).
Proof.
  intros Hdated. revert articles.
  induction Hdated as [|post index [d Hd] _ IH]; intros articles.
  - by eexists.
  - simpl. unfold archive_post.
    rewrite (getitem_Some _ _ _ Hd), result_bind_Ok.
    cbn [as_datetime]. rewrite !result_bind_Ok. apply IH.
Qed.

(** What the date archives hold.  When [build_date_archives] returns, every
    post of the index carries a timestamp; there is one page per year,
    month and day in which some post was published, none of them twice;
    and the page of a path lists exactly the posts of that year, month or
    day, in the order of the index. *)
Theorem build_date_archives_pages output index config pages :
  build_date_archives output index config = Ok pages →
  dated index
  ∧ ∃ paths,
      NoDup paths
      ∧ (∀ path, path ∈ paths ↔
           ∃ post, post ∈ index ∧ on_path path post = true)
      ∧ Forall2 (λ pg path,
                   page_file pg = render_file (output ++ u "/" ++ path)
                   ∧ page_posts pg = filter (λ post, on_path path post) index
                   ∧ page_posts pg ≠ []
                   ∧ cfg_get config "site" "title" = Ok (page_title pg))
                pages paths.
Proof.
  unfold build_date_archives. intros (articles & Harticles & Hpages)%bind_Ok.
  apply archive_posts_Ok in Harticles as (Hdated & Hget & Hkeys & Hnodup).
  specialize (Hnodup (NoDup_nil_2 : NoDup ([] : list (str * list item)).*1)).
  split; [done|]. exists articles.*1. split; [done|]. split.
  { intros path. rewrite Hkeys. split; [|by left].
    intros [?|?%elem_of_nil]; done. }
  apply mapM_Ok in Hpages.
  assert (∀ path posts, (path, posts) ∈ articles →
            posts = filter (λ post, on_path path post) index) as Hposts.
  { intros path posts Hin. by rewrite <-(dd_get_elem _ _ _ Hnodup Hin), Hget. }
  assert (∀ path, path ∈ articles.*1 →
            filter (λ post, on_path path post) index ≠ []) as Hne.
  { intros path [(post & Hpost & Hon)|?%elem_of_nil]%Hkeys; [|done].
    intros Hnil. assert (post ∈ filter (λ post, on_path path post) index) as Hin.
    { apply list_elem_of_filter. by rewrite Hon. }
    rewrite Hnil in Hin. by apply elem_of_nil in Hin. }
  clear Hget Hkeys Hnodup Hdated.
  induction Hpages as [|[path posts] pg articles pages Hpg _ IH]; [constructor|].
  rewrite fmap_cons. constructor.
  - apply bind_Ok in Hpg as (title & Htitle & [= <-]). simpl.
    rewrite (Hposts path posts) by by left.
    split; [done|]. split; [done|]. split; [|done].
    apply Hne. by left.
  - apply IH.
    + intros path' posts' Hin. apply Hposts. by right.
    + intros path' Hin. apply Hne. rewrite fmap_cons. by right.
Qed.

Lemma build_date_archives_pages_witness :
  dated [hello_post; second_post]
  ∧ ∃ paths,
      NoDup paths
      ∧ (∀ path, path ∈ paths ↔
           ∃ post, post ∈ [hello_post; second_post] ∧ on_path path post = true)
      ∧ Forall2 (λ pg path,
                   page_file pg = render_file (u "docs" ++ u "/" ++ path)
                   ∧ page_posts pg
                     = filter (λ post, on_path path post)
                         [hello_post; second_post]
                   ∧ page_posts pg ≠ []
                   ∧ cfg_get default_config "site" "title" = Ok (page_title pg))
                ((λ '(path, posts),
                    Page (render_file (u "docs/" ++ path)) "index.html"
                      (VStr (u "Firstname Lastname")) Archive posts [])
                   <$> [(u "blog/2024", [hello_post; second_post]);
                        (u "blog/2024/01", [hello_post]);
                        (u "blog/2024/01/05", [hello_post]);
                        (u "blog/2024/02", [second_post]);
                        (u "blog/2024/02/01", [second_post])])
                paths.
Proof.
  apply (build_date_archives_pages (u "docs") [hello_post; second_post]
           default_config).
  compute_eq.
Defined.
End archive_pages.

Section tag_pages.
Variable nfkd : str → str.
Implicit Types (index : list item) (post : item) (tags : list str)
  (by_tags : list (str * list item)) (slug : str).

Lemma group_tags_get by_tags post tags slug :
  dd_get slug (foldl (λ acc tag, dd_append (normalize_tag nfkd tag) post acc)
                     by_tags tags)
  = dd_get slug by_tags
    ++ replicate (length (filter (λ tag, normalize_tag nfkd tag = slug) tags))
                 post.
Proof.
  revert by_tags. induction tags as [|tag tags IH]; intros by_tags.
  - simpl. by rewrite app_nil_r.
  - cbn [foldl]. rewrite IH, dd_get_append, <-app_assoc. f_equal.
    rewrite filter_cons.
    destruct (decide (slug = normalize_tag nfkd tag)) as [->|Hne].
    + by rewrite decide_True.
    + by rewrite decide_False.
Qed.

Lemma group_tags_keys by_tags post tags slug :
  slug ∈ (foldl (λ acc tag, dd_append (normalize_tag nfkd tag) post acc)
                by_tags tags).*1
  ↔ slug ∈ normalize_tag nfkd <$> tags ∨ slug ∈ by_tags.*1.
Proof.
  revert by_tags. induction tags as [|tag tags IH]; intros by_tags.
  - simpl. rewrite elem_of_nil. tauto.
  - cbn [foldl]. rewrite IH, dd_append_elem_keys, fmap_cons, elem_of_cons.
    tauto.
Qed.

Lemma group_tags_NoDup by_tags post tags :
  NoDup by_tags.*1 →
  NoDup (foldl (λ acc tag, dd_append (normalize_tag nfkd tag) post acc)
               by_tags tags).*1.
Proof.
  revert by_tags. induction tags as [|tag tags IH]; intros by_tags; [done|].
  intros Hd. cbn [foldl]. by apply IH, dd_append_NoDup.
Qed.

Lemma group_posts_Ok by_tags index a :
  group_posts nfkd by_tags index = Ok a →
  ∃ tl,
    mapM post_tags index = Ok tl
    ∧ (∀ slug, dd_get slug a
               = dd_get slug by_tags
                 ++ index ≫= (λ post,
                      replicate (tagged_times nfkd slug post) post))
    ∧ (∀ slug, slug ∈ a.*1 ↔
         slug ∈ normalize_tag nfkd <$> concat tl ∨ slug ∈ by_tags.*1)
    ∧ (NoDup by_tags.*1 → NoDup a.*1).
Proof.
  revert by_tags. induction index as [|post index IH]; intros by_tags.
  - intros [= <-]. exists []. split; [done|]. split; [|split; [|done]].
    + intros slug. by rewrite app_nil_r.
    + intros slug. simpl. rewrite elem_of_nil. tauto.
  - simpl. intros (a1 & Hpost & Hrest)%bind_Ok.
    unfold group_post in Hpost.
    apply bind_Ok in Hpost as (tags & Htags & [= <-]).
    apply IH in Hrest as (tl & Htl & Hget & Hkeys & Hnodup).
    exists (tags :: tl). split; [by rewrite Htags, Htl|]. split; [|split].
    + intros slug. rewrite Hget, group_tags_get, <-app_assoc. f_equal.
      cbn [mbind list_bind]. f_equal.
      unfold tagged_times. by rewrite Htags.
    + intros slug. rewrite Hkeys, group_tags_keys. simpl.
      rewrite fmap_app, elem_of_app. tauto.
    + intros ?. by apply Hnodup, group_tags_NoDup.
Qed.

(** What the tag pages hold.  When [build_tags] returns, there is one page
    per slug, none of them twice, and the slugs with a page are exactly the
    ones the tag index links to.  The page of a slug lists the posts in the
    order of the index, a post once for each of its tags that has this
    slug: a post tagged with two spellings of one slug is listed twice. *)
Theorem build_tags_pages output index config tag_page pages :
  build_tags nfkd output index config = Ok (tag_page :: pages) →
  ∃ slugs,
    NoDup slugs
    ∧ (∀ slug, slug ∈ slugs ↔ slug ∈ (page_tags tag_page).*1)
    ∧ Forall2 (λ pg slug,
                 page_file pg
                   = render_file (output ++ u "/blog/tags/" ++ slug)
                 ∧ page_subtitle pg = Tagged slug
                 ∧ page_posts pg
                   = index ≫= (λ post,
                       replicate (tagged_times nfkd slug post) post))
              pages slugs.
Proof.
  unfold build_tags. intros (site_title & _ & H)%bind_Ok.
  apply bind_Ok in H as (tags & Htags & H).
  apply bind_Ok in H as (by_tags & Hgroup & [= <- <-]).
  apply group_posts_Ok in Hgroup as (tl & Htl & Hget & Hkeys & Hnodup).
  specialize (Hnodup (NoDup_nil_2 : NoDup ([] : list (str * list item)).*1)).
  unfold tag_index_slugs, all_tags in Htags.
  rewrite Htl, !result_bind_Ok in Htags. injection Htags as <-.
  exists by_tags.*1. split; [done|]. split.
  { intros slug. cbn [page_tags]. rewrite fst_tag_urls, Hkeys.
    rewrite !list_elem_of_fmap. split.
    - intros [(tag & -> & Htag)|(x & _ & ?%elem_of_nil)]; [|done].
      exists tag. split; [done|].
      by rewrite sort_strs_Permutation, elem_of_remove_dups.
    - intros (tag & -> & Htag). left. exists tag. split; [done|].
      by rewrite sort_strs_Permutation, elem_of_remove_dups in Htag. }
  assert (∀ slug posts, (slug, posts) ∈ by_tags →
            posts = index ≫= (λ post,
                      replicate (tagged_times nfkd slug post) post)) as Hposts.
  { intros slug posts Hin. by rewrite <-(dd_get_elem _ _ _ Hnodup Hin), Hget. }
  clear Hget Hkeys Hnodup.
  induction by_tags as [|[slug posts] by_tags IH]; [constructor|].
  rewrite !fmap_cons. constructor.
  - simpl. split; [done|]. split; [done|]. apply Hposts. by left.
  - apply IH. intros slug' posts' Hin. apply Hposts. by right.
Qed.
End tag_pages.

Lemma build_tags_pages_witness :
  ∃ slugs,
    NoDup slugs
    ∧ (∀ slug, slug ∈ slugs ↔ slug ∈ [u "go"; u "go"])
    ∧ Forall2 (λ pg slug,
                 page_file pg
                   = render_file (u "docs" ++ u "/blog/tags/" ++ slug)
                 ∧ page_subtitle pg = Tagged slug
                 ∧ page_posts pg
                   = [go_post] ≫= (λ post,
                       replicate (tagged_times nfkd_sample slug post) post))
              [Page (u "docs/blog/tags/go/index.html") "index.html"
                 (VStr (u "Firstname Lastname")) (Tagged (u "go"))
                 [go_post; go_post] []]
              slugs.
Proof.
  apply (build_tags_pages nfkd_sample (u "docs") [go_post] default_config
           (Page (u "docs/blog/tags/index.html") "tags.html"
              (VStr (u "Firstname Lastname")) Tags []
              [(u "go", u "/blog/tags/go/"); (u "go", u "/blog/tags/go/")])).
  compute_eq.
Defined.

(** ** The home page for any [posts_per_page] *)

Section build_index_more.
Implicit Types (index : list item) (config : config).

Lemma slice_to_Ok {A} v (l r : list A) :
  slice_to v l = Ok r →
  (v = VNone ∧ r = l)
  ∨ ∃ n, as_int v = Some n ∧ r = py_slice_to n l.
Proof.
  unfold slice_to. destruct v; try (by intros [= <-]; right; eexists);
    try done. intros [= <-]. by left.
Qed.

Lemma py_slice_to_prefix {A} n (l : list A) : py_slice_to n l `prefix_of` l.
Proof.
  unfold py_slice_to. destruct (n <? 0);
    [exists (drop (length l - Z.to_nat (- n)) l)
    |exists (drop (Z.to_nat n) l)]; by rewrite take_drop.
Qed.

(** Whatever [posts_per_page] is set to, when [build_index] returns it has
    rendered two pages, the full listing holds the posts of the index, and
    the home page shows a prefix of the full listing: all of it when the
    setting is [null], and all but the last [-n] posts (not the first [n])
    when the setting is a negative number [n]. *)
Theorem build_index_pages output index config pages :
  build_index output index config = Ok pages →
  ∃ home_page full_page ppp,
    pages = [home_page; full_page]
    ∧ cfg_get config "build" "posts_per_page" = Ok ppp
    ∧ page_posts full_page ≡ₚ index
    ∧ page_posts home_page `prefix_of` page_posts full_page
    ∧ (ppp = VNone → page_posts home_page = page_posts full_page)
    ∧ (∀ n, ppp = VInt n → n < 0 →
         length (page_posts home_page) = (length index - Z.to_nat (- n))%nat).
Proof.
  unfold build_index, listing. intros (ppp & Hppp & H)%bind_Ok.
  apply bind_Ok in H as (site_title & _ & H).
  apply bind_Ok in H as (full & Hfull & H).
  apply bind_Ok in H as (home & Hhome & [= <-]).
  pose proof (sorted_Permutation _ _ _ _ Hfull) as Hperm.
  eexists _, _, ppp. split; [done|]. split; [done|]. cbn [page_posts].
  split; [done|].
  apply slice_to_Ok in Hhome as [[-> ->]|(n & Hn & ->)].
  - split; [done|]. split; [done|]. by intros n [=].
  - split; [apply py_slice_to_prefix|]. split; [by intros ->|].
    intros n' -> Hneg. injection Hn as <-. unfold py_slice_to.
    destruct (Z.ltb_spec n' 0); [|lia].
    rewrite length_take, (Permutation_length Hperm). lia.
Qed.

Lemma build_index_pages_witness :
  ∃ home_page full_page ppp,
    [ Page (u "docs/index.html") "index.html" (VStr (u "Firstname Lastname"))
        Latest [second_post] [];
      Page (u "docs/blog/index.html") "index.html"
        (VStr (u "Firstname Lastname"))
        (AllOfIt (VStr (u "Firstname Lastname"))) [second_post; hello_post] [] ]
      = [home_page; full_page]
    ∧ cfg_get (config_posts_per_page (-1)) "build" "posts_per_page" = Ok ppp
    ∧ page_posts full_page ≡ₚ [hello_post; second_post]
    ∧ page_posts home_page `prefix_of` page_posts full_page
    ∧ (ppp = VNone → page_posts home_page = page_posts full_page)
    ∧ (∀ n, ppp = VInt n → n < 0 →
         length (page_posts home_page)
         = (length [hello_post; second_post] - Z.to_nat (- n))%nat).
Proof.
  apply (build_index_pages (u "docs") [hello_post; second_post]
           (config_posts_per_page (-1))).
  compute_eq.
Defined.
End build_index_more.

(** ** What the site build needs from the posts *)

Section build_site_facts.
Variable nfkd : str → str.
Variable aware : str → bool.
Implicit Types (index : list item) (post : item) (config : config).

Lemma add_entry_is_ok site_url author post :
  is_ok (add_entry aware site_url author post) ↔
  ∃ url date, post !! "url" = Some url ∧ is_ok (py_add site_url url)
         ∧ is_Some (post !! "title") ∧ is_Some (post !! "html_content")
         ∧ post !! "date" = Some date ∧ is_ok (pubdate aware date).
Proof.
  unfold add_entry. split.
  - intros [e H]. apply bind_Ok in H as (url & Hurl%getitem_Ok & H).
    apply bind_Ok in H as (id & Hid & H).
    apply bind_Ok in H as (title & Htitle%getitem_Ok & H).
    apply bind_Ok in H as (url' & _ & H).
    apply bind_Ok in H as (link & _ & H).
    apply bind_Ok in H as (content & Hcontent%getitem_Ok & H).
    apply bind_Ok in H as (date & Hdate%getitem_Ok & H).
    apply bind_Ok in H as (tt & Hpub & _).
    exists url, date. split; [done|]. split; [by exists id|].
    do 3 (split; [eauto|]). by exists tt.
  - intros (url & date & Hurl & [id Hid] & [title Htitle] & [content Hcontent]
            & Hdate & [tt Hpub]).
    rewrite (getitem_Some _ _ _ Hurl), !result_bind_Ok, Hid, !result_bind_Ok.
    rewrite (getitem_Some _ _ _ Htitle), !result_bind_Ok, Hid, !result_bind_Ok.
    rewrite (getitem_Some _ _ _ Hcontent), !result_bind_Ok. cbv zeta.
    rewrite (getitem_Some _ _ _ Hdate), !result_bind_Ok, Hpub, !result_bind_Ok.
    by eexists.
Qed.

Lemma sitemap_entry_is_ok site_url post url d :
  post !! "url" = Some url → post !! "date" = Some (VDate d) →
  is_ok (sitemap_entry site_url post).
Proof.
  intros Hurl Hdate. unfold sitemap_entry.
  rewrite (getitem_Some _ _ _ Hurl), !result_bind_Ok.
  rewrite (getitem_Some _ _ _ Hdate), !result_bind_Ok.
  by eexists.
Qed.

Lemma slice_to_is_ok {A} ppp (l : list A) :
  ppp = VNone ∨ is_Some (as_int ppp) → is_ok (slice_to ppp l).
Proof.
  intros [->|[n Hn]]; [by eexists|].
  unfold slice_to. rewrite Hn. destruct ppp; by eexists.
Qed.

Lemma dated_filter (P : item → Prop) `{∀ x, Decision (P x)} index :
  dated index → dated (filter P index).
Proof.
  unfold dated. rewrite !Forall_forall.
  intros Hd post [_ Hin]%list_elem_of_filter. by apply Hd.
Qed.

(** The exact requirements of the site build, for a configuration that has
    the settings the builders read, and as far as the program's own
    operations go (what the template engine and the feed library do with
    the values they are handed is not part of it).  The steps for index
    pages, tag pages, date archives, feeds and sitemap all go through
    exactly when every post of the index has a timestamp and tags that are
    strings and, unless it is a draft, a [url]; with the feeds enabled a
    post that is not a draft also needs a [url] that can be appended to the
    site's, a [title] and its rendered content. *)
Theorem build_site_succeeds_iff output index config enabled site_url ppp :
  cfg_get config "feeds" "enabled" = Ok enabled →
  cfg_get config "site" "url" = Ok site_url →
  is_ok (cfg_get config "site" "title") →
  is_ok (cfg_get config "site" "author") →
  is_ok (cfg_get config "site" "description") →
  cfg_get config "build" "posts_per_page" = Ok ppp →
  ppp = VNone ∨ is_Some (as_int ppp) →
  is_ok (build_site nfkd aware output index config)
  ↔ Forall (post_ok (truthy enabled) site_url) index.
Proof.
  intros Henabled Hurl [title Htitle] [author Hauthor] [descr Hdescr] Hppp
    Hslice.
  split.
  - intros [st H]. unfold build_site in H.
    apply bind_Ok in H as (index_pages & _ & H).
    apply bind_Ok in H as (tag_pages & Htags & H).
    apply bind_Ok in H as (archive_pages & Harch & H).
    apply bind_Ok in H as (fd & Hfeeds & H).
    apply bind_Ok in H as (sitemap & Hsitemap & _).
    apply build_date_archives_pages in Harch as [Hdated _].
    unfold build_tags in Htags.
    apply bind_Ok in Htags as (t & _ & Htags).
    apply bind_Ok in Htags as (slugs & _ & Htags).
    apply bind_Ok in Htags as (by_tags & Hgroup & _).
    apply group_posts_Ok in Hgroup as (tl & Htl & _).
    apply Forall_forall. intros post Hpost.
    split; [by apply (proj1 (Forall_forall _ _) Hdated)|].
    split.
    { destruct (mapM_Ok_elem_l _ _ _ _ Htl Hpost) as (tags & _ & Hpt).
      by exists tags. }
    intros Hdraft.
    destruct (build_sitemap_needs_keys _ _ _ _ _ Hsitemap Hpost Hdraft)
      as [[url Hposturl] _].
    exists url. split; [done|]. intros Htruthy.
    unfold build_feeds in Hfeeds.
    rewrite Henabled, result_bind_Ok, Htruthy in Hfeeds. cbn [negb] in Hfeeds.
    rewrite Hurl, Htitle, Hauthor, Hdescr, !result_bind_Ok in Hfeeds.
    apply bind_Ok in Hfeeds as (items & Hitems & Hfeeds).
    apply bind_Ok in Hfeeds as (entries & Hentries & _).
    assert (post ∈ items) as Hin.
    { rewrite (feed_items_Permutation _ _ Hitems). by apply not_draft_filter. }
    destruct (mapM_Ok_elem_l _ _ _ _ Hentries Hin) as (e & _ & He).
    assert (is_ok (add_entry aware site_url author post)) as Hok
      by by exists e.
    apply add_entry_is_ok in Hok as (url' & date & Hurl' & ? & ? & ? & _).
    by simplify_eq.
  - intros Hposts.
    assert (dated index) as Hdated.
    { eapply Forall_impl; [exact Hposts|]. by intros post [? _]. }
    assert (is_ok (mapM post_tags index)) as [tl Htl].
    { apply mapM_is_ok. eapply Forall_impl; [exact Hposts|].
      by intros post (_ & ? & _). }
    unfold build_site.
    assert (is_ok (build_index output index config)) as [index_pages ->].
    { unfold build_index, listing.
      rewrite Hppp, Htitle, !result_bind_Ok.
      destruct (sorted_dated_is_ok index true Hdated) as [full ->].
      rewrite result_bind_Ok.
      destruct (slice_to_is_ok ppp full Hslice) as [home ->].
      by eexists. }
    rewrite result_bind_Ok.
    assert (is_ok (build_tags nfkd output index config)) as [tag_pages ->].
    { unfold build_tags, tag_index_slugs, all_tags.
      rewrite Htitle, Htl, !result_bind_Ok.
      destruct (group_posts_is_ok nfkd [] index tl Htl) as [by_tags ->].
      by eexists. }
    rewrite result_bind_Ok.
    assert (is_ok (build_date_archives output index config))
      as [archive_pages ->].
    { unfold build_date_archives.
      destruct (archive_posts_dated [] index Hdated) as [articles ->].
      rewrite result_bind_Ok. apply mapM_is_ok, Forall_forall.
      intros [path posts] _. rewrite Htitle. by eexists. }
    rewrite result_bind_Ok.
    assert (is_ok (build_feeds aware output index config)) as [fd ->].
    { unfold build_feeds. rewrite Henabled, result_bind_Ok.
      destruct (truthy enabled) eqn:Htruthy; cbn [negb]; [|by eexists].
      rewrite Hurl, Htitle, Hauthor, Hdescr, !result_bind_Ok.
      destruct (sorted_dated_is_ok
                  (filter (λ post, negb (is_draft post)) index) false)
        as [items Hitems]; [by apply dated_filter|].
      unfold feed_items. rewrite Hitems, result_bind_Ok.
      assert (is_ok (mapM (add_entry aware site_url author) items))
        as [entries ->];
        [|by eexists].
      apply mapM_is_ok, Forall_forall. intros post Hin.
      rewrite (sorted_Permutation _ _ _ _ Hitems) in Hin.
      apply not_draft_filter in Hin as [Hin Hdraft].
      apply (proj1 (Forall_forall _ _) Hposts) in Hin
        as ([d Hd] & _ & Hrest).
      destruct (Hrest Hdraft) as (url & Hposturl & Hfeed).
      destruct Hfeed as (? & ? & ?); [done|].
      apply add_entry_is_ok. exists url, (VDate d).
      do 4 (split; [done|]). split; [done|]. by eexists. }
    rewrite result_bind_Ok.
    assert (is_ok (build_sitemap output index config)) as [sitemap ->].
    { unfold build_sitemap. rewrite Hurl, result_bind_Ok.
      apply mapM_is_ok, Forall_forall. intros post Hin.
      apply not_draft_filter in Hin as [Hin Hdraft].
      apply (proj1 (Forall_forall _ _) Hposts) in Hin
        as ([d Hd] & _ & Hrest).
      destruct (Hrest Hdraft) as (url & Hposturl & _).
      by eapply sitemap_entry_is_ok. }
    by eexists.
Qed.
End build_site_facts.

Lemma build_site_succeeds_iff_witness :
  is_ok (build_site nfkd_sample no_zone (u "docs") [second_post; draft_post]
           default_config)
  ↔ Forall (post_ok (truthy (VBool true))
              (VStr (u "https://blog.banderson443.me")))
           [second_post; draft_post].
Proof.
  apply (build_site_succeeds_iff nfkd_sample no_zone (u "docs")
           [second_post; draft_post] default_config (VBool true)
           (VStr (u "https://blog.banderson443.me")) (VInt 20)).
  - compute_eq.
  - compute_eq.
  - exists (VStr (u "Firstname Lastname")). compute_eq.
  - exists (VStr (u "Firstname Lastname")). compute_eq.
  - exists (VStr (u "Personal blog and writings")). compute_eq.
  - compute_eq.
  - right. by exists 20.
Defined.

(** ** Slugs of titles *)

Section to_slug_facts.
Variable str_lower : str → str.
Implicit Types (s value : str) (c : N).

Lemma filter_Forall_id {A} (P : A → Prop) `{∀ x, Decision (P x)} (l : list A) :
  Forall P l → filter P l = l.
Proof.
  induction 1 as [|x l Hx _ IH]; [done|].
  by rewrite filter_cons_True, IH.
Qed.

Lemma Forall_filter_self {A} (P : A → Prop) `{∀ x, Decision (P x)}
    (l : list A) :
  Forall P (filter P l).
Proof. apply Forall_forall. by intros x [? _]%list_elem_of_filter. Qed.

Lemma to_slug_chars value :
  Forall (λ c, is_lower c || bool_decide (c = dash)) (to_slug str_lower value).
Proof. apply Forall_filter_self. Qed.

Lemma no_space_replaced s :
  Forall (λ c, is_lower c || bool_decide (c = dash)) s →
  (λ c, if bool_decide (c = space) then dash else c) <$> s = s.
Proof.
  induction 1 as [|c s Hc _ IH]; [done|].
  rewrite fmap_cons, IH. f_equal.
  destruct (decide (c = space)) as [->|Hsp]; [done|].
  by rewrite bool_decide_eq_false_2.
Qed.

(** The slug of a title is made of the letters [a-z] and of dashes only
    (digits are dropped, and so is everything that does not lower to an
    ASCII letter), and slugging a slug changes nothing, as long as
    lowering leaves such text alone. *)
Theorem to_slug_idempotent value :
  (∀ s, Forall (λ c, is_lower c || bool_decide (c = dash)) s →
        str_lower s = s) →
  Forall (λ c, is_lower c = true ∨ c = dash) (to_slug str_lower value)
  ∧ to_slug str_lower (to_slug str_lower value) = to_slug str_lower value.
Proof.
  intros Hlower. pose proof (to_slug_chars value) as Hchars. split.
  - eapply Forall_impl; [exact Hchars|]. intros c Hc.
    apply orb_prop_elim in Hc as [Hc|Hc].
    + left. by apply Is_true_true.
    + right. by apply bool_decide_unpack in Hc.
  - unfold to_slug at 1. rewrite (Hlower _ Hchars).
    rewrite (no_space_replaced _ Hchars). by apply filter_Forall_id.
Qed.
End to_slug_facts.

Lemma lower_fixes_slug s :
  Forall (λ c, is_lower c || bool_decide (c = dash)) s → lower s = s.
Proof.
  induction 1 as [|c s Hc _ IH]; [done|].
  unfold lower in *. rewrite fmap_cons, IH. f_equal.
  apply lower_char_id. apply orb_prop_elim in Hc as [Hc|Hc].
  - apply Is_true_true in Hc. revert Hc. unfold is_lower, is_upper. char_lia.
  - by apply bool_decide_unpack in Hc as ->.
Qed.

Lemma to_slug_idempotent_witness :
  to_slug lower (u "Top 10 Tips") = u "top--tips"
  ∧ Forall (λ c, is_lower c = true ∨ c = dash) (to_slug lower (u "Top 10 Tips"))
  ∧ to_slug lower (to_slug lower (u "Top 10 Tips"))
    = to_slug lower (u "Top 10 Tips").
Proof.
  split; [by vm_compute|].
  apply (to_slug_idempotent lower (u "Top 10 Tips")).
  apply lower_fixes_slug.
Defined.
